(** * Chunking pipeline and hybrid retrieval router of the tenancy RAG app

    A shallow embedding of the decision logic of [rag_app/ingestion.py]
    ([Ingestor._build_splitter], [Ingestor._split_law_document],
    [Ingestor.chunk_stats]) and of [rag_app/rag.py] ([RAGPipeline.ask] with
    its local helpers [_is_law_query], [_extract_article] and [_add]).

    Python [str] values are lists of Unicode code points.  The parts of the
    interpreter's Unicode database that the program consults beyond ASCII
    (decimal digits, alphanumerics, lowercase mapping) are taken as a
    parameter, the class [UnicodeDB]; everything on ASCII is written out.
    The patterns of the program are terms of a small regular-expression
    type, matched by a backtracking matcher; Python floats are binary64
    values of [SpecFloat]; metadata dictionaries are finite maps; the
    vector index and the text splitter are parameters, and the searches
    that [ask] issues are logged in a state that is threaded through. *)

From Stdlib Require Import ZArith NArith List Bool Lia SpecFloat DecimalNat.
From stdpp Require Import base gmap strings list fin_maps sorting.

#[local] Set Warnings "-clear-no-such-hyp".
Local Open Scope N_scope.

(** ** Text *)

Abbreviation str := (list N) (only parsing).

(** UTF-8 decoding, used only to read the literals of this file. *)
Fixpoint utf8_decode (bs : list N) : str :=
  match bs with
  | [] => []
  | b0 :: r0 =>
    if b0 <? 128 then b0 :: utf8_decode r0
    else if b0 <? 224 then
      match r0 with
      | b1 :: r1 => ((b0 - 192) * 64 + (b1 - 128)) :: utf8_decode r1
      | _ => []
      end
    else if b0 <? 240 then
      match r0 with
      | b1 :: b2 :: r2 =>
        ((b0 - 224) * 4096 + (b1 - 128) * 64 + (b2 - 128)) :: utf8_decode r2
      | _ => []
      end
    else
      match r0 with
      | b1 :: b2 :: b3 :: r3 =>
        ((b0 - 240) * 262144 + (b1 - 128) * 4096 + (b2 - 128) * 64 + (b3 - 128))
          :: utf8_decode r3
      | _ => []
      end
  end.

Definition py (w : string) : str :=
  utf8_decode (map Ascii.N_of_ascii (String.list_ascii_of_string w)).

(** The Unicode database beyond ASCII. [uni_lower s i] is the lowercase
    mapping of the non-ASCII code point at index [i] of [s] (the mapping of
    capital sigma depends on its context). *)
Class UnicodeDB := {
  uni_isdecimal : N -> bool;
  uni_isalnum : N -> bool;
  uni_lower : str -> nat -> str
}.

Definition in_range (lo hi c : N) : bool := (lo <=? c) && (c <=? hi).

(** [str.isspace] of one code point, also the class [\s] of [re]. *)
Definition is_space (c : N) : bool :=
  in_range 9 13 c || in_range 28 32 c || (c =? 133) || (c =? 160)
  || (c =? 5760) || in_range 8192 8202 c || (c =? 8232) || (c =? 8233)
  || (c =? 8239) || (c =? 8287) || (c =? 12288).

Definition ascii_lower_letter (c : N) : bool := in_range 97 122 c.
Definition ascii_upper_letter (c : N) : bool := in_range 65 90 c.

Section Text.
Context {U : UnicodeDB}.

(** The class [\d] of [re] on a [str] pattern. *)
Definition is_digit (c : N) : bool :=
  if c <? 128 then in_range 48 57 c else uni_isdecimal c.

(** The class [\w] of [re] on a [str] pattern. *)
Definition is_word (c : N) : bool :=
  if c <? 128
  then in_range 48 57 c || ascii_upper_letter c || ascii_lower_letter c
       || (c =? 95)
  else uni_isalnum c.

Definition lower_at (s : str) (i : nat) (c : N) : str :=
  if c <? 128 then [if ascii_upper_letter c then c + 32 else c]
  else uni_lower s i.

(** [str.lower]. *)
Definition lower (s : str) : str := concat (imap (lower_at s) s).
End Text.

Fixpoint starts_with (w s : str) : bool :=
  match w, s with
  | [], _ => true
  | a :: w', b :: s' => (a =? b) && starts_with w' s'
  | _ :: _, [] => false
  end.

(** [w in s] on strings. *)
Fixpoint str_in (w s : str) : bool :=
  starts_with w s || match s with [] => false | _ :: t => str_in w t end.

(** [s[i:j]] for [0 <= i] and [0 <= j]. *)
Definition slice (s : str) (i j : nat) : str := take (j - i) (drop i s).

Fixpoint lstrip (s : str) : str :=
  match s with
  | c :: t => if is_space c then lstrip t else s
  | [] => []
  end.

Definition rstrip (s : str) : str := reverse (lstrip (reverse s)).

(** [str.strip] without argument. *)
Definition strip (s : str) : str := rstrip (lstrip s).

(** ** Regular expressions

    The fragment of [re] the program's patterns are written in, matched by
    backtracking as [re] does: alternatives left to right, repetitions
    greedy. *)

Inductive regex :=
| Eps
| Cls (p : N -> bool)
| Rep (p : N -> bool) (lo : nat) (hi : option nat)
| Seq (r1 r2 : regex)
| Alt (r1 r2 : regex)
| Grp (n : nat) (r : regex)
| WordB
| BolM
| EolM.

Record Match := mkMatch {
  m_start : nat;
  m_end : nat;
  m_groups : gmap nat (nat * nat)
}.

(** The length of the longest run of [p] at the head of [l], at most [cap]. *)
Fixpoint run (p : N -> bool) (l : str) (cap : nat) : nat :=
  match cap, l with
  | S cap', c :: t => if p c then S (run p t cap') else O
  | _, _ => O
  end.

Section Engine.
Context {U : UnicodeDB}.

Definition word_at (s : str) (i : nat) : bool :=
  match s !! i with Some c => is_word c | None => false end.

Definition at_boundary (s : str) (i : nat) : bool :=
  xorb (match i with O => false | S j => word_at s j end) (word_at s i).

Definition at_bol (s : str) (i : nat) : bool :=
  match i with O => true | S j => bool_decide (s !! j = Some 10) end.

Definition at_eol (s : str) (i : nat) : bool :=
  bool_decide (i = length s) || bool_decide (s !! i = Some 10).

Context {R : Type}.

(** Greedy repetition: the longest run first, then one character less. *)
Fixpoint backoff (lo i : nat) (c : gmap nat (nat * nat))
    (k : nat -> gmap nat (nat * nat) -> option R) (n : nat) : option R :=
  if (n <? lo)%nat then None
  else match k (i + n)%nat c with
       | Some x => Some x
       | None => match n with O => None | S n' => backoff lo i c k n' end
       end.

Fixpoint rmatch (r : regex) (s : str) (i : nat) (c : gmap nat (nat * nat))
    (k : nat -> gmap nat (nat * nat) -> option R) : option R :=
  match r with
  | Eps => k i c
  | Cls p =>
    match s !! i with
    | Some ch => if p ch then k (S i) c else None
    | None => None
    end
  | Rep p lo hi =>
    backoff lo i c k (run p (drop i s) (default (length s) hi))
  | Seq r1 r2 => rmatch r1 s i c (fun j c' => rmatch r2 s j c' k)
  | Alt r1 r2 =>
    match rmatch r1 s i c k with
    | Some x => Some x
    | None => rmatch r2 s i c k
    end
  | Grp n r1 => rmatch r1 s i c (fun j c' => k j (<[n := (i, j)]> c'))
  | WordB => if at_boundary s i then k i c else None
  | BolM => if at_bol s i then k i c else None
  | EolM => if at_eol s i then k i c else None
  end.
End Engine.

Section Search.
Context {U : UnicodeDB}.

(** A match of [r] that starts exactly at [i]. *)
Definition match_at (r : regex) (s : str) (i : nat) : option Match :=
  rmatch r s i ∅ (fun j c => Some (mkMatch i j c)).

(** The candidate start positions of a scan: [0 .. len(s)]. *)
Definition positions (s : str) : list nat := seq 0 (S (length s)).

Fixpoint first_match (r : regex) (s : str) (ps : list nat) : option Match :=
  match ps with
  | [] => None
  | i :: ps' =>
    match match_at r s i with
    | Some mo => Some mo
    | None => first_match r s ps'
    end
  end.

(** [re.search(r, s)]. *)
Definition search (r : regex) (s : str) : option Match :=
  first_match r s (positions s).

(** The scan of [finditer]: candidate positions in order, those before
    [pos] (inside the previous match) skipped. After an empty match the
    scan moves one position on. *)
Fixpoint scan (r : regex) (s : str) (ps : list nat) (pos : nat)
    : list Match :=
  match ps with
  | [] => []
  | i :: ps' =>
    if (i <? pos)%nat then scan r s ps' pos
    else match match_at r s i with
         | Some mo =>
           mo :: scan r s ps'
                   (if (m_end mo =? m_start mo)%nat then S (m_end mo)
                    else m_end mo)
         | None => scan r s ps' pos
         end
  end.

(** [list(r.finditer(s))]. *)
Definition finditer (r : regex) (s : str) : list Match :=
  scan r s (positions s) 0.
End Search.

(** [m.group(n)]; the patterns below set each of their groups in every
    match. *)
Definition group (s : str) (mo : Match) (n : nat) : str :=
  match m_groups mo !! n with
  | Some (i, j) => slice s i j
  | None => []
  end.

Definition seqs (rs : list regex) : regex := foldr Seq Eps rs.

(** A literal string. *)
Definition lit (w : str) : regex := seqs (map (fun c => Cls (N.eqb c)) w).

(** One literal character under IGNORECASE: [re] compares the lowercase of
    the text character, and adds the characters whose uppercase is the
    pattern character ([i]: U+0130 and U+0131, [k]: U+212A, [s]: U+017F). *)
Definition ieq (c : N) (ch : N) : bool :=
  (ch =? c)
  || (ascii_lower_letter c && (ch =? c - 32))
  || ((c =? 105) && ((ch =? 304) || (ch =? 305)))
  || ((c =? 107) && (ch =? 8490))
  || ((c =? 115) && (ch =? 383)).

(** A literal string under IGNORECASE; [w] is given in lowercase. *)
Definition liti (w : str) : regex := seqs (map (fun c => Cls (ieq c)) w).

(** [[a-z]]. *)
Definition az (c : N) : bool := ascii_lower_letter c.

(** [[a-z]] under IGNORECASE: the 52 ASCII letters and U+0130, U+0131,
    U+017F, U+212A. *)
Definition az_i (c : N) : bool :=
  ascii_lower_letter c || ascii_upper_letter c
  || (c =? 304) || (c =? 305) || (c =? 383) || (c =? 8490).

(** [.] without DOTALL. *)
Definition dot (c : N) : bool := negb (c =? 10).

(** A database that maps nothing beyond ASCII; the closed examples below run
    the program on ASCII text, where the database is not consulted. *)
Definition ascii_db : UnicodeDB := {|
  uni_isdecimal := fun _ => false;
  uni_isalnum := fun _ => false;
  uni_lower := fun s i => match s !! i with Some c => [c] | None => [] end
|}.

(** ** Documents *)

(** Metadata values: strings (paths, categories, article ids) and integers
    (page numbers). *)
Inductive value :=
| VStr (s : str)
| VInt (z : Z).

#[global] Instance value_eq_dec : EqDecision value.
Proof. solve_decision. Defined.

#[global] Instance value_countable : Countable value.
Proof.
  refine (inj_countable'
    (fun v => match v with VStr s => inl s | VInt z => inr z end)
    (fun x => match x with inl s => VStr s | inr z => VInt z end) _).
  intros []; reflexivity.
Defined.

Record Document := mkDocument {
  page_content : str;
  metadata : gmap string value
}.

#[global] Instance Document_eq_dec : EqDecision Document.
Proof. solve_decision. Defined.

(** ** rag_app/config.py *)

Record AppConfig := mkAppConfig {
  chunk_size : Z;
  chunk_overlap : Z;
  chunk_strategy : str;
  token_chunk_size : Z;
  token_overlap : Z;
  embedding_model_name : str;
  k : Z
}.

(** ** rag_app/rag.py: query classification *)

Section Classifier.
Context {U : UnicodeDB}.

(** [\b7:\d{1,3}\b] *)
Definition re_has_num : regex :=
  seqs [WordB; lit (py "7:"); Rep is_digit 1 (Some 3%nat); WordB].

(** [\b(7:\d{1,3}[a-z]?)\b] *)
Definition re_article_id : regex :=
  seqs [WordB;
        Grp 1 (seqs [lit (py "7:"); Rep is_digit 1 (Some 3%nat);
                     Rep az 0 (Some 1%nat)]);
        WordB].

(** [\b(?:art\.|artikel|article|чл\.|член)\s*(\d{1,3}[a-z]?)\b] *)
Definition re_article_word : regex :=
  seqs [WordB;
        Alt (lit (py "art."))
          (Alt (lit (py "artikel"))
            (Alt (lit (py "article"))
              (Alt (lit (py "чл.")) (lit (py "член")))));
        Rep is_space 0 None;
        Grp 1 (seqs [Rep is_digit 1 (Some 3%nat); Rep az 0 (Some 1%nat)]);
        WordB].

Definition bw_keywords : list str :=
  [py " bw"; py "burgerlijk"; py "civil code"; py "boek 7"; py "book 7"].

Definition art_keywords : list str :=
  [py "art."; py "artikel"; py "article"; py "чл."; py "член"].

Definition _is_law_query (q : str) : bool :=
  let ql := lower q in
  let has_num := bool_decide (is_Some (search re_has_num ql)) in
  let mentions_bw :=
    existsb (fun w => str_in w ql) bw_keywords || str_in (py "bw") ql in
  let mentions_art := existsb (fun w => str_in w ql) art_keywords in
  has_num || (mentions_bw && mentions_art).

Definition _extract_article (q : str) : option str :=
  let ql := lower q in
  match search re_article_id ql with
  | Some m => Some (group ql m 1)
  | None =>
    match search re_article_word ql with
    | Some m2 => Some (py "7:" ++ group ql m2 1)
    | None => None
    end
  end.
End Classifier.

(** ** rag_app/rag.py: retrieval *)

(** One call of [VectorStore.similarity_search]. *)
Record Query := mkQuery {
  q_text : str;
  q_k : Z;
  q_where : option (gmap string value)
}.

(** Computations that query the vector store: the log of the calls issued
    so far is threaded through. *)
Definition Store (A : Type) : Type := list Query -> A * list Query.

Definition ret {A} (a : A) : Store A := fun log => (a, log).

Definition bind {A B} (c : Store A) (f : A -> Store B) : Store B :=
  fun log => let '(a, log') := c log in f a log'.

Notation "'let*' x := c 'in' k" := (bind c (fun x => k))
  (at level 10, x name, c at level 100, k at level 200).

(** The key of the merge: [(m.get("source"), m.get("page"),
    d.page_content[:64])]. *)
Definition dedup_key (d : Document) : option value * option value * str :=
  (metadata d !! "source"%string, metadata d !! "page"%string,
   take 64 (page_content d)).

(** The closure [_add] of [ask]: [seen] and [merged] are its captured
    variables, returned updated. *)
Fixpoint _add (k : Z) (seq : list Document)
    (seen : gset (option value * option value * str))
    (merged : list Document)
    : gset (option value * option value * str) * list Document :=
  match seq with
  | [] => (seen, merged)
  | d :: rest =>
    let key := dedup_key d in
    if decide (key ∈ seen) then _add k rest seen merged
    else
      let seen' := {[key]} ∪ seen in
      let merged' := merged ++ [d] in
      if (k <=? Z.of_nat (length merged'))%Z then (seen', merged')
      else _add k rest seen' merged'
  end.

(** Python truthiness of an optional string. *)
Definition truthy (o : option str) : bool :=
  match o with Some (_ :: _) => true | _ => false end.

Section Ask.
Context {U : UnicodeDB}.

(** The vector index behind [VectorStore]: the hits it returns for a
    query. *)
Variable index : Query -> list Document.

Definition similarity_search (query : str) (k : Z)
    (where_ : option (gmap string value)) : Store (list Document) :=
  fun log =>
    let call := mkQuery query k where_ in (index call, log ++ [call]).

(** The retrieval of [RAGPipeline.ask]: the second component of its
    result. *)
Definition ask (cfg : AppConfig) (question : str) : Store (list Document) :=
  let k := k cfg in
  let article_id := _extract_article question in
  if _is_law_query question then
    let law_k := Z.max 2 (k / 2) in
    let where_ : gmap string value :=
      if truthy article_id
      then {[ "article"%string := VStr (default [] article_id) ]}
      else {[ "category"%string := VStr (py "laws") ]} in
    let* law_hits := similarity_search question law_k (Some where_) in
    let* gen_hits := similarity_search question k None in
    let '(seen, merged) := _add k law_hits ∅ [] in
    let merged :=
      if (Z.of_nat (length merged) <? k)%Z
      then snd (_add k gen_hits seen merged) else merged in
    ret merged
  else
    similarity_search question k None.
End Ask.

(** The merge as the specification words it: narrow hits, then broad hits,
    first occurrence of each key kept, cut at [k]. *)
Fixpoint fresh (seen : gset (option value * option value * str))
    (l : list Document) : list Document :=
  match l with
  | [] => []
  | d :: t =>
    if decide (dedup_key d ∈ seen) then fresh seen t
    else d :: fresh ({[dedup_key d]} ∪ seen) t
  end.

Definition merge_spec (k : nat) (narrow broad : list Document)
    : list Document :=
  take k (fresh ∅ (narrow ++ broad)).

(** ** rag_app/ingestion.py: splitter selection *)

(** The splitter objects of [langchain_text_splitters], by class and
    constructor arguments. *)
Inductive Splitter :=
| SentenceTransformersTokenTextSplitter
    (tokens_per_chunk chunk_overlap : Z) (model_name : str)
| NLTKTextSplitter (chunk_size chunk_overlap : Z) (separator language : str)
| MarkdownTextSplitter (chunk_size chunk_overlap : Z)
| RecursiveCharacterTextSplitter
    (chunk_size chunk_overlap : Z) (separators : list str).

(** The outcome of one [if strategy == name: try: ... except Exception: ...]
    block: the splitter returned, or the strategy to go on with. *)
Definition try_strategy (constructs : Splitter -> bool) (name : str)
    (sp : Splitter) (strategy : str) : Splitter + str :=
  if decide (strategy = name) then
    if constructs sp then inl sp else inr (py "recursive")
  else inr strategy.

Section Splitters.
Context {U : UnicodeDB}.

(** Whether the lazy import and the constructor call of an optional
    splitter succeed in the running installation. *)
Variable constructs : Splitter -> bool.

Definition _build_splitter (cfg : AppConfig) : Splitter :=
  let strategy :=
    lower (match chunk_strategy cfg with
           | [] => py "recursive"
           | c :: t => c :: t
           end) in
  match try_strategy constructs (py "tokens")
          (SentenceTransformersTokenTextSplitter (token_chunk_size cfg)
             (token_overlap cfg) (embedding_model_name cfg)) strategy with
  | inl sp => sp
  | inr strategy =>
    match try_strategy constructs (py "sentences")
            (NLTKTextSplitter (chunk_size cfg) (chunk_overlap cfg)
               [10; 10] (py "english")) strategy with
    | inl sp => sp
    | inr strategy =>
      match try_strategy constructs (py "markdown")
              (MarkdownTextSplitter (chunk_size cfg) (chunk_overlap cfg))
              strategy with
      | inl sp => sp
      | inr _ =>
        RecursiveCharacterTextSplitter (chunk_size cfg) (chunk_overlap cfg)
          [[10; 10]; [10]; py ". "; py " "]
      end
    end
  end.
End Splitters.

(** ** rag_app/ingestion.py: article segmentation *)

Section Segmenter.
Context {U : UnicodeDB}.

(** [Boek(\d+)] under IGNORECASE *)
Definition re_boek : regex :=
  seqs [liti (py "boek"); Grp 1 (Rep is_digit 1 None)].

(** [(?mi)^(\s*Artikel\s+(\d+[a-z]?))\b.*$] *)
Definition re_artikel : regex :=
  seqs [BolM;
        Grp 1 (seqs [Rep is_space 0 None; liti (py "artikel");
                     Rep is_space 1 None;
                     Grp 2 (seqs [Rep is_digit 1 None;
                                  Rep az_i 0 (Some 1%nat)])]);
        WordB; Rep dot 0 None; EolM].

(** [meta.get("source_rel") or meta.get("source") or ""]; both entries
    are path strings, set by the loaders and by [load_paths]. *)
Definition source_path (meta : gmap string value) : str :=
  match meta !! "source_rel"%string with
  | Some (VStr (c :: t)) => c :: t
  | _ =>
    match meta !! "source"%string with
    | Some (VStr s) => s
    | _ => []
    end
  end.

(** The body of the loop over [enumerate(idxs)]. *)
Definition article_doc (text : str) (meta : gmap string value)
    (book : option str) (idxs : list (nat * nat * str))
    (i : nat) (x : nat * nat * str) : Document :=
  let '(s, e, num) := x in
  let s2 := e in
  let e2 := match idxs !! (i + 1)%nat with
            | Some (s', _, _) => s'
            | None => length text
            end in
  let chunk_txt := strip (slice text s e2) in
  let md := <["article_num"%string := VStr num]> meta in
  let md :=
    if truthy book then
      let b := default [] book in
      <["book"%string := VStr b]>
        (<["article"%string := VStr (b ++ py ":" ++ num)]> md)
    else <["article"%string := VStr num]> md in
  mkDocument chunk_txt md.

Definition _split_law_document (d : Document) : list Document :=
  let text := page_content d in
  let meta := metadata d in
  let src_rel := source_path meta in
  let mbook := search re_boek src_rel in
  let book := match mbook with
              | Some m => Some (group src_rel m 1)
              | None => None
              end in
  let idxs :=
    map (fun m => (m_start m, m_end m, group text m 2))
        (finditer re_artikel text) in
  match idxs with
  | [] => [d]
  | _ :: _ => imap (article_doc text meta book idxs) idxs
  end.
End Segmenter.

(** ** Python floats

    [float] is IEEE 754 binary64, here [spec_float] at precision 53. *)

Definition float_of_int (z : Z) : spec_float :=
  binary_normalize 53 1024 z 0 false.

(** A decimal literal [num/den], rounded to the nearest float. *)
Definition float_literal (num den : Z) : spec_float :=
  SFdiv 53 1024 (float_of_int num) (float_of_int den).

(** [int(x)]: truncation towards zero. *)
Definition int_of_float (x : spec_float) : Z :=
  match x with
  | S754_finite sg m e =>
    let a := match e with
             | Zneg p => (Zpos m / 2 ^ Zpos p)%Z
             | _ => (Zpos m * 2 ^ e)%Z
             end in
    if sg then (- a)%Z else a
  | _ => 0%Z
  end.

(** ** rag_app/ingestion.py: chunking and statistics *)

Record Stats := mkStats {
  st_chunks : Z;
  st_avg : Z;
  st_p95 : Z;
  st_max : Z
}.

(** [sizes_sorted[int(0.95 * (len(sizes_sorted)-1))]] *)
Definition p95_index (n : nat) : Z :=
  int_of_float
    (SFmul 53 1024 (float_literal 95 100) (float_of_int (Z.of_nat n - 1))).

Definition sum_Z (l : list Z) : Z := foldr Z.add 0%Z l.
Definition max_Z (l : list Z) : Z :=
  match l with [] => 0%Z | x :: t => foldr Z.max x t end.

(** The statistics of [chunk_stats] from the chunk sizes. *)
Definition stats_of_sizes (sizes : list Z) : Stats :=
  let total := Z.of_nat (length sizes) in
  match sizes with
  | [] => mkStats 0 0 0 0
  | _ :: _ =>
    let sizes_sorted := merge_sort Z.le sizes in
    let p95 := default 0%Z
                 (sizes_sorted !! Z.to_nat (p95_index (length sizes_sorted))) in
    mkStats total
      (int_of_float
         (SFdiv 53 1024 (float_of_int (sum_Z sizes)) (float_of_int total)))
      p95 (max_Z sizes)
  end.

Section Chunking.
Context {U : UnicodeDB}.

(** [self.splitter.split_documents] *)
Variable split_documents : list Document -> list Document.

Definition chunk (docs : list Document) : list Document :=
  let '(law_docs, other_docs) :=
    foldl (fun '(law_docs, other_docs) d =>
             if decide (metadata d !! "category"%string
                        = Some (VStr (py "laws")))
             then (law_docs ++ _split_law_document d, other_docs)
             else (law_docs, other_docs ++ [d]))
          ([], []) docs in
  (match law_docs with [] => [] | _ :: _ => split_documents law_docs end)
  ++ (match other_docs with
      | [] => []
      | _ :: _ => split_documents other_docs
      end).

Definition chunk_stats (docs : list Document) : Stats :=
  let chunks := chunk docs in
  let sizes := map (fun c => Z.of_nat (length (page_content c))) chunks in
  stats_of_sizes sizes.
End Chunking.

(** ** Declarative matching

    [Span s r i c j c']: the pattern [r] can match the text of [s] between
    positions [i] and [j], turning the groups [c] into [c']. *)

Section Spans.
Context {U : UnicodeDB}.

Inductive Span (s : str)
  : regex -> nat -> gmap nat (nat * nat) -> nat -> gmap nat (nat * nat)
    -> Prop :=
| Span_Eps i c : Span s Eps i c i c
| Span_Cls p i c ch :
    s !! i = Some ch -> p ch = true -> Span s (Cls p) i c (S i) c
| Span_Rep p lo hi i c n :
    (lo <= n)%nat ->
    (n <= run p (drop i s) (default (length s) hi))%nat ->
    Span s (Rep p lo hi) i c (i + n)%nat c
| Span_Seq r1 r2 i c j c' l c'' :
    Span s r1 i c j c' -> Span s r2 j c' l c'' ->
    Span s (Seq r1 r2) i c l c''
| Span_AltL r1 r2 i c j c' :
    Span s r1 i c j c' -> Span s (Alt r1 r2) i c j c'
| Span_AltR r1 r2 i c j c' :
    Span s r2 i c j c' -> Span s (Alt r1 r2) i c j c'
| Span_Grp n r i c j c' :
    Span s r i c j c' -> Span s (Grp n r) i c j (<[n := (i, j)]> c')
| Span_WordB i c : at_boundary s i = true -> Span s WordB i c i c
| Span_BolM i c : at_bol s i = true -> Span s BolM i c i c
| Span_EolM i c : at_eol s i = true -> Span s EolM i c i c.
End Spans.

(** ** Shapes used in the statements *)

Section Shapes.
Context {U : UnicodeDB}.

(** The text of a book-7 citation: [7:], one to three digits, at most one
    letter. *)
Definition article_id_shape (a : str) : Prop :=
  exists ds l,
    a = py "7:" ++ ds ++ l
    /\ (1 <= length ds <= 3)%nat
    /\ Forall (fun ch => is_digit ch = true) ds
    /\ (l = [] \/ exists ch, l = [ch] /\ az ch = true).


(** The matches of [finditer] follow one another inside the text: each
    starts at or after [pos], is a span of the pattern, and the next one
    starts at or after its end. *)
Fixpoint chained (r : regex) (s : str) (pos : nat) (ms : list Match)
    : Prop :=
  match ms with
  | [] => True
  | mo :: t =>
    (pos <= m_start mo)%nat /\ (m_start mo <= length s)%nat
    /\ Span s r (m_start mo) ∅ (m_end mo) (m_groups mo)
    /\ chained r s (m_end mo) t
  end.
End Shapes.

(** The questions and texts of the examples. *)
Definition q_subletting : str := py "What does 7:244 BW say about subletting?".
Definition q_france : str := py "What is the capital of France?".
Definition q_cobweb : str := py "Is there an article on cobweb removal?".

(** The two searches of a statute question, as the specification words
    them. *)
Section Queries.
Context {U : UnicodeDB}.

Definition narrow_query (k : Z) (q : str) : Query :=
  mkQuery q (Z.max 2 (k / 2))
    (Some (match _extract_article q with
           | Some a => {[ "article"%string := VStr a ]}
           | None => {[ "category"%string := VStr (py "laws") ]}
           end)).

Definition broad_query (k : Z) (q : str) : Query := mkQuery q k None.
End Queries.

(** The keys of a list of hits. *)
Definition keys_of (l : list Document)
    : gset (option value * option value * str) :=
  list_to_set (map dedup_key l).

(** Four hits with pairwise different keys, and an index that answers the
    filtered search with the first two and the unfiltered one with the last
    three. *)
Definition hit (name : string) : Document :=
  mkDocument (py name) {[ "source"%string := VStr (py "laws/Boek7.txt") ]}.

Definition example_index (qu : Query) : list Document :=
  match q_where qu with
  | Some _ => [hit "A"; hit "B"]
  | None => [hit "B"; hit "C"; hit "D"]
  end.

(** Blank characters, and text that has a character that is not blank. *)
Definition blank (c : N) : Prop := is_space c = true.
Definition has_ink (l : str) : Prop :=
  exists c, c ∈ l /\ is_space c = false.

(** Where the slice of the [i]-th heading ends: at the start of the next
    heading, or at the end of the text. *)
Definition next_start (text : str) (ms : list Match) (i : nat) : nat :=
  match ms !! S i with
  | Some m' => m_start m'
  | None => length text
  end.

Definition law_example : Document :=
  mkDocument (py "Artikel 244
Body1
Artikel 244a
Body2") {[ "source_rel"%string := VStr (py "laws/BOEK7.txt");
           "category"%string := VStr (py "laws") ]}.

Definition prose_example : Document :=
  mkDocument (py "The tenant pays the rent on time.")
    {[ "source_rel"%string := VStr (py "laws/notes.txt");
       "category"%string := VStr (py "laws") ]}.

Definition law_example_unnumbered : Document :=
  mkDocument (page_content law_example)
    {[ "source_rel"%string := VStr (py "laws/tenancy.txt") ]}.

(** The splitter selection, as the specification words it: the configured
    name in lowercase, the optional splitter that name asks for, and the
    recursive character splitter of the configuration. *)
Section Strategy.
Context {U : UnicodeDB}.

Definition strategy_name (cfg : AppConfig) : str :=
  lower (match chunk_strategy cfg with
         | [] => py "recursive"
         | c :: t => c :: t
         end).

Definition optional_splitter (cfg : AppConfig) (name : str)
    : option Splitter :=
  if decide (name = py "tokens") then
    Some (SentenceTransformersTokenTextSplitter (token_chunk_size cfg)
            (token_overlap cfg) (embedding_model_name cfg))
  else if decide (name = py "sentences") then
    Some (NLTKTextSplitter (chunk_size cfg) (chunk_overlap cfg)
            [10; 10] (py "english"))
  else if decide (name = py "markdown") then
    Some (MarkdownTextSplitter (chunk_size cfg) (chunk_overlap cfg))
  else None.

Definition recursive_splitter (cfg : AppConfig) : Splitter :=
  RecursiveCharacterTextSplitter (chunk_size cfg) (chunk_overlap cfg)
    [[10; 10]; [10]; py ". "; py " "].
End Strategy.

(** The default configuration of [AppConfig], with a given strategy and
    result count. *)
Definition config_with (strategy : string) (k : Z) : AppConfig :=
  mkAppConfig 1000 150 (py strategy) 350 60
    (py "intfloat/multilingual-e5-base") k.

(** Five chunks of 10, 20, 30, 40 and 50 characters. *)
Definition five_chunks : list Document :=
  map (fun n => mkDocument (replicate n 120) ∅) [30; 10; 50; 20; 40]%nat.

(** The slices of the headings [ms] before stripping, in order. *)
Definition raw_slices (text : str) (ms : list Match) : list str :=
  imap (fun i m => slice text (m_start m) (next_start text ms i)) ms.

(** Digits, at least one, then at most one character of the class [p]. *)
Section NumberShape.
Context {U : UnicodeDB}.

Definition number_shape (p : N -> bool) (num : str) : Prop :=
  exists ds l,
    num = ds ++ l /\ ds <> []
    /\ Forall (fun ch => is_digit ch = true) ds
    /\ (l = [] \/ exists ch, l = [ch] /\ p ch = true).
End NumberShape.

(** A document of the category ["laws"], and the splitter applied as
    [chunk] applies it: to a list that is not empty. *)
Definition is_law (d : Document) : Prop :=
  metadata d !! "category"%string = Some (VStr (py "laws")).

#[global] Instance is_law_dec d : Decision (is_law d).
Proof. unfold is_law. apply _. Defined.

Definition split_nonempty (split_documents : list Document -> list Document)
    (l : list Document) : list Document :=
  match l with [] => [] | _ :: _ => split_documents l end.

(** ** rag_app/eval.py

    The retrieval evaluation, from the parsed items on: the index is the
    store after the optional rebuild. The timings and the figures
    computed from them, the reciprocal ranks and the rounded ratios of
    the summary are floats and left out; the summary is given by the
    counts [total], [hit1] and [hitk] it is computed from. *)

Record EvalItem := mkEvalItem {
  it_q : str;
  it_must : list str;
  it_k : option Z
}.

Record EvalRow := mkEvalRow {
  row_q : str;
  row_k : Z;
  row_hit : bool;
  row_rank : option nat;
  row_first_source : option value
}.

Record EvalCounts := mkEvalCounts {
  ev_total : nat;
  ev_hit1 : nat;
  ev_hitk : nat
}.

(** [x or y] for an optional integer [x]. *)
Definition or_int (x : option Z) (y : Z) : Z :=
  match x with
  | Some z => if (z =? 0)%Z then y else z
  | None => y
  end.

Section Eval.
Context {U : UnicodeDB}.

Definition _match (doc : Document) (patterns : list str) : bool :=
  let src := lower (source_path (metadata doc)) in
  let text := lower (page_content doc) in
  existsb (fun p => let p := lower p in str_in p src || str_in p text)
          patterns.

(** [for i, d in enumerate(docs): if _match(d, must): rank = i; break],
    counting from [i]. *)
Fixpoint rank_loop (i : nat) (docs : list Document) (must : list str)
    : option nat :=
  match docs with
  | [] => None
  | d :: rest => if _match d must then Some i else rank_loop (S i) rest must
  end.

Variable index : Query -> list Document.

(** The body of the loop over the items. *)
Definition eval_item (k_used : Z) (it : EvalItem) : Store EvalRow :=
  let kq := or_int (it_k it) k_used in
  let* docs := similarity_search index (it_q it) kq None in
  let rank := rank_loop 0 docs (it_must it) in
  ret (mkEvalRow (it_q it) kq (bool_decide (is_Some rank)) rank
         (match docs with
          | d :: _ => metadata d !! "source_rel"%string
          | [] => None
          end)).

Fixpoint eval_items (k_used : Z) (items : list EvalItem)
    : Store (list EvalRow) :=
  match items with
  | [] => ret []
  | it :: rest =>
    let* r := eval_item k_used it in
    let* rs := eval_items k_used rest in
    ret (r :: rs)
  end.

Definition run_retrieval_eval (cfg : AppConfig) (items : list EvalItem)
    (top_k : option Z) : Store (EvalCounts * list EvalRow) :=
  let k_used := or_int top_k (k cfg) in
  let* results := eval_items k_used items in
  let total := length results in
  let hit1 :=
    length (filter (fun r => row_rank r = Some 0%nat) results) in
  let hitk := length (filter (fun r => row_hit r = true) results) in
  ret (mkEvalCounts total hit1 hitk, results).
End Eval.

(** ** main.py and eval/compare_chunking.py: chunking overrides *)

(** Assignments to the attributes of the configuration. *)
Definition set_chunk_size (v : Z) (cfg : AppConfig) : AppConfig :=
  mkAppConfig v (chunk_overlap cfg) (chunk_strategy cfg)
    (token_chunk_size cfg) (token_overlap cfg) (embedding_model_name cfg)
    (k cfg).

Definition set_chunk_overlap (v : Z) (cfg : AppConfig) : AppConfig :=
  mkAppConfig (chunk_size cfg) v (chunk_strategy cfg)
    (token_chunk_size cfg) (token_overlap cfg) (embedding_model_name cfg)
    (k cfg).

Definition set_chunk_strategy (v : str) (cfg : AppConfig) : AppConfig :=
  mkAppConfig (chunk_size cfg) (chunk_overlap cfg) v
    (token_chunk_size cfg) (token_overlap cfg) (embedding_model_name cfg)
    (k cfg).

Definition set_token_chunk_size (v : Z) (cfg : AppConfig) : AppConfig :=
  mkAppConfig (chunk_size cfg) (chunk_overlap cfg) (chunk_strategy cfg)
    v (token_overlap cfg) (embedding_model_name cfg) (k cfg).

Definition set_token_overlap (v : Z) (cfg : AppConfig) : AppConfig :=
  mkAppConfig (chunk_size cfg) (chunk_overlap cfg) (chunk_strategy cfg)
    (token_chunk_size cfg) v (embedding_model_name cfg) (k cfg).

(** Python truthiness of an optional integer. *)
Definition truthy_int (o : option Z) : bool :=
  match o with Some z => negb (z =? 0)%Z | None => false end.

(** [cli], the runtime overrides of the chunking settings: the options
    [--strategy], [--size] and [--overlap], each [None] when not given. *)
Definition cli_overrides (strategy : option str) (size overlap : option Z)
    (cfg : AppConfig) : AppConfig :=
  let cfg :=
    if truthy strategy then set_chunk_strategy (default [] strategy) cfg
    else cfg in
  let cfg :=
    if truthy_int size then
      if decide (chunk_strategy cfg = py "tokens")
      then set_token_chunk_size (default 0%Z size) cfg
      else set_chunk_size (default 0%Z size) cfg
    else cfg in
  let cfg :=
    if truthy_int overlap then
      if decide (chunk_strategy cfg = py "tokens")
      then set_token_overlap (default 0%Z overlap) cfg
      else set_chunk_overlap (default 0%Z overlap) cfg
    else cfg in
  cfg.


(** The strategies the command line and the comparison script choose
    from, and the size and overlap a splitter was constructed with. *)
Definition strategy_choices : list str :=
  [py "recursive"; py "tokens"; py "sentences"; py "markdown"].

Definition splitter_size (sp : Splitter) : Z :=
  match sp with
  | SentenceTransformersTokenTextSplitter n _ _ => n
  | NLTKTextSplitter n _ _ _ => n
  | MarkdownTextSplitter n _ => n
  | RecursiveCharacterTextSplitter n _ _ => n
  end.

Definition splitter_overlap (sp : Splitter) : Z :=
  match sp with
  | SentenceTransformersTokenTextSplitter _ o _ => o
  | NLTKTextSplitter _ o _ _ => o
  | MarkdownTextSplitter _ o => o
  | RecursiveCharacterTextSplitter _ o _ => o
  end.

(** ** rag_app/ingestion.py: loading

    [pathlib.Path] and the document loaders are interfaces of the
    environment: what the program uses of them is declared here. *)

Class PathOps (Path : Type) := {
  suffix : Path -> str;
  path_str : Path -> str;
  (** [p.relative_to(base)]; [None] when it raises. *)
  relative_to : Path -> Path -> option Path;
  parts : Path -> list str;
  as_posix : Path -> str
}.

(** What a loader call does: it returns documents, raises [TypeError],
    or raises another exception. *)
Inductive Outcome :=
| Loaded (docs : list Document)
| RaisedTypeError
| Raised.

Class Loaders := {
  (** [None] when the import of [PyMuPDFLoader] failed. *)
  PyMuPDFLoader : option (str -> Outcome);
  PyPDFLoader : str -> Outcome;
  (** Whether [import chardet] succeeds. *)
  chardet : bool;
  (** [TextLoader(path, encoding=, autodetect_encoding=, errors=).load()];
      [None] for an argument that is not given. *)
  TextLoader : str -> option str -> bool -> option str -> Outcome
}.

(** [md.setdefault(key, v)] *)
Definition setdefault (key : string) (v : value) (md : gmap string value)
    : gmap string value :=
  match md !! key with Some _ => md | None => <[key := v]> md end.

(** The annotation of one newly added document. *)
Definition annotate (category source_rel : str) (d : Document) : Document :=
  mkDocument (page_content d)
    (setdefault "source_rel" (VStr source_rel)
       (setdefault "category" (VStr category) (metadata d))).

Section Loading.
Context {U : UnicodeDB} {Path : Type} {PO : PathOps Path} {L : Loaders}.

(** The loading part of the loop body: the documents after it, and
    whether the body was left by [continue]; [None] when an exception
    leaves [load_paths]. *)
Definition load_file (docs : list Document) (p : Path)
    : option (list Document * bool) :=
  if decide (lower (suffix p) = py ".pdf") then
    match
      match PyMuPDFLoader with
      | Some loader =>
        match loader (path_str p) with
        | Loaded ds => Some ds
        | _ => None
        end
      | None => None
      end
    with
    | Some ds => Some (docs ++ ds, true)
    | None =>
      match PyPDFLoader (path_str p) with
      | Loaded ds => Some (docs ++ ds, false)
      | _ => None
      end
    end
  else if decide (lower (suffix p) ∈ [py ".txt"; py ".md"]) then
    match
      (if chardet then TextLoader (path_str p) None true None else Raised)
    with
    | Loaded ds => Some (docs ++ ds, false)
    | _ =>
      match TextLoader (path_str p) (Some (py "utf-8")) false
              (Some (py "ignore")) with
      | Loaded ds => Some (docs ++ ds, false)
      | RaisedTypeError =>
        match TextLoader (path_str p) (Some (py "utf-8")) false None with
        | Loaded ds => Some (docs ++ ds, false)
        | _ => None
        end
      | Raised => None
      end
    end
  else Some (docs, false).

(** The category and the relative source path that [load_paths] computes
    for the file [p]. *)
Definition path_category (data_dir p : Path) : str :=
  let rel := default p (relative_to p data_dir) in
  let parts := parts rel in
  if (1 <? length parts)%nat then default [] (head parts) else py "root".

Definition path_source_rel (data_dir p : Path) : str :=
  as_posix (default p (relative_to p data_dir)).

(** The body of the loop of [load_paths]. *)
Definition load_step (data_dir : Path) (docs : list Document) (p : Path)
    : option (list Document) :=
  let before := length docs in
  match load_file docs p with
  | None => None
  | Some (docs, true) => Some docs
  | Some (docs, false) =>
    let after := length docs in
    if (before <? after)%nat then
      Some (take before docs
            ++ map (annotate (path_category data_dir p)
                      (path_source_rel data_dir p))
                 (drop before docs))
    else Some docs
  end.

Fixpoint load_paths_from (data_dir : Path) (docs : list Document)
    (paths : list Path) : option (list Document) :=
  match paths with
  | [] => Some docs
  | p :: rest =>
    match load_step data_dir docs p with
    | Some docs' => load_paths_from data_dir docs' rest
    | None => None
    end
  end.

(** [Ingestor.load_paths]; [data_dir] is [self.cfg.data_dir]. *)
Definition load_paths (data_dir : Path) (paths : list Path)
    : option (list Document) :=
  load_paths_from data_dir [] paths.
End Loading.

(** Both annotations of [load_paths] are present. *)
Definition annotated (d : Document) : Prop :=
  is_Some (metadata d !! "category"%string)
  /\ is_Some (metadata d !! "source_rel"%string).

(** ** Examples for loading and evaluation *)

(** An example of paths: the directories, the stem and the suffix of the
    file name. *)
Record ExamplePath := mkPath {
  ex_dirs : list str;
  ex_stem : str;
  ex_suffix : str
}.

Definition ex_parts (p : ExamplePath) : list str :=
  ex_dirs p ++ [ex_stem p ++ ex_suffix p].

Fixpoint join_posix (l : list str) : str :=
  match l with
  | [] => []
  | [x] => x
  | x :: t => x ++ py "/" ++ join_posix t
  end.

Definition example_paths : PathOps ExamplePath := {|
  suffix := ex_suffix;
  path_str := fun p => join_posix (ex_parts p);
  relative_to := fun p base =>
    if bool_decide (ex_parts base `prefix_of` ex_dirs p)
    then Some (mkPath (drop (length (ex_parts base)) (ex_dirs p))
                 (ex_stem p) (ex_suffix p))
    else None;
  parts := ex_parts;
  as_posix := fun p => join_posix (ex_parts p)
|}.

(** The data directory [data], a text file and a PDF in its folder
    [laws]. *)
Definition ex_data : ExamplePath := mkPath [] (py "data") [].
Definition ex_law_txt : ExamplePath :=
  mkPath [py "data"; py "laws"] (py "Boek7") (py ".txt").
Definition ex_law_pdf : ExamplePath :=
  mkPath [py "data"; py "laws"] (py "Boek7") (py ".PDF").

(** Example loaders: PyMuPDF reads every PDF as one page; [chardet] is
    not installed and [TextLoader] is of a version without [errors], so
    text files are read by the last fallback. *)
Definition example_loaders : Loaders := {|
  PyMuPDFLoader := Some (fun path =>
    Loaded [mkDocument (py "Artikel 1
Page") {[ "source"%string := VStr path; "page"%string := VInt 0 ]}]);
  PyPDFLoader := fun _ => Raised;
  chardet := false;
  TextLoader := fun path _ _ errors =>
    match errors with
    | Some _ => RaisedTypeError
    | None =>
      Loaded [mkDocument (py "Artikel 1
Text") {[ "source"%string := VStr path ]}]
    end
|}.

(** A law document with an uppercase article letter, and one with text
    before its first heading. *)
Definition law_example_upper : Document :=
  mkDocument (py "Artikel 244A
Body") {[ "source_rel"%string := VStr (py "laws/Boek7.txt");
          "category"%string := VStr (py "laws") ]}.

Definition law_example_preamble : Document :=
  mkDocument (py "Preamble
Artikel 1
Body") {[ "source_rel"%string := VStr (py "laws/Boek7.txt");
          "category"%string := VStr (py "laws") ]}.

(** An evaluation item whose pattern is the text of the hit [C]. *)
Definition eval_example : EvalItem := mkEvalItem q_france [py "C"] None.

(** ** rag_app/store.py: the payload of [build]

    The vector store itself is ChromaDB; what [build] computes is the
    payload of [self._coll.add] and the count it returns. *)

(** [str(n)] for a natural number: its decimal digits. *)
Fixpoint uint_digits (u : Decimal.uint) : str :=
  match u with
  | Decimal.Nil => []
  | Decimal.D0 u => 48 :: uint_digits u
  | Decimal.D1 u => 49 :: uint_digits u
  | Decimal.D2 u => 50 :: uint_digits u
  | Decimal.D3 u => 51 :: uint_digits u
  | Decimal.D4 u => 52 :: uint_digits u
  | Decimal.D5 u => 53 :: uint_digits u
  | Decimal.D6 u => 54 :: uint_digits u
  | Decimal.D7 u => 55 :: uint_digits u
  | Decimal.D8 u => 56 :: uint_digits u
  | Decimal.D9 u => 57 :: uint_digits u
  end.

Definition str_of_nat (n : nat) : str := uint_digits (Nat.to_uint n).

Record AddCall (Vec : Type) := mkAddCall {
  add_documents : list str;
  add_metadatas : list (gmap string value);
  add_ids : list str;
  add_embeddings : list Vec
}.

Arguments mkAddCall {Vec}.
Arguments add_documents {Vec}.
Arguments add_metadatas {Vec}.
Arguments add_ids {Vec}.
Arguments add_embeddings {Vec}.

Section Store.
Context {U : UnicodeDB} {Vec : Type}.

(** [self.embed.inner.embed_documents] *)
Variable embed_documents : list str -> list Vec.

Definition _use_e5_prefix (cfg : AppConfig) : bool :=
  str_in (py "e5") (lower (embedding_model_name cfg)).

Definition build (cfg : AppConfig) (docs : list Document)
    : AddCall Vec * nat :=
  let texts := map page_content docs in
  let metadatas := map metadata docs in
  let ids := map (fun i => py "doc-" ++ str_of_nat i) (seq 0 (length docs)) in
  let to_embed :=
    if _use_e5_prefix cfg then map (fun t => py "passage: " ++ t) texts
    else texts in
  let vectors := embed_documents to_embed in
  (mkAddCall texts metadatas ids vectors, length docs).
End Store.

(** ** ui.py: the retrieval of [ui_ask]

    The answer text and the error message of the [except] branch are
    left out: the rows of sources are modelled, for a pipeline that
    raises no exception. *)

Definition set_k (v : Z) (cfg : AppConfig) : AppConfig :=
  mkAppConfig (chunk_size cfg) (chunk_overlap cfg) (chunk_strategy cfg)
    (token_chunk_size cfg) (token_overlap cfg) (embedding_model_name cfg) v.

Section UI.
Context {U : UnicodeDB}.
Variable index : Query -> list Document.

Definition ui_ask (cfg : AppConfig) (question : str) (top_k : Z)
    : Store (list (option value * option value)) :=
  if negb (truthy (Some question)) || negb (truthy (Some (strip question)))
  then ret []
  else
    let* docs := ask index (set_k top_k cfg) question in
    ret (map (fun d => (metadata d !! "source"%string,
                        metadata d !! "page"%string)) docs).
End UI.

(** * Properties of the matcher *)

Section EngineFacts.
Context {U : UnicodeDB}.
Implicit Types (s : str) (r : regex) (c : gmap nat (nat * nat)).

Lemma backoff_sound {R} lo i c (k : nat -> gmap nat (nat * nat) -> option R)
    n x :
  backoff lo i c k n = Some x ->
  exists n', (lo <= n' <= n)%nat /\ k (i + n')%nat c = Some x.
Proof.
  induction n as [|n IH]; simpl.
  - destruct (0 <? lo)%nat eqn:E; [discriminate|].
    apply Nat.ltb_ge in E.
    destruct (k (i + 0)%nat c) eqn:Ek; [|discriminate].
    intros [= <-]. exists O. split; [lia|done].
  - destruct (S n <? lo)%nat eqn:E; [discriminate|].
    apply Nat.ltb_ge in E.
    destruct (k (i + S n)%nat c) eqn:Ek.
    + intros [= <-]. exists (S n). split; [lia|done].
    + intros H. destruct (IH H) as (n' & Hn' & Hk).
      exists n'. split; [lia|done].
Qed.

Lemma backoff_complete {R} lo i c
    (k : nat -> gmap nat (nat * nat) -> option R) n n' :
  (lo <= n' <= n)%nat -> is_Some (k (i + n')%nat c) ->
  is_Some (backoff lo i c k n).
Proof.
  induction n as [|n IH]; simpl; intros Hn Hk.
  - assert (n' = O) as -> by lia.
    destruct (0 <? lo)%nat eqn:E; [apply Nat.ltb_lt in E; lia|].
    destruct Hk as [x ->]. eauto.
  - destruct (S n <? lo)%nat eqn:E; [apply Nat.ltb_lt in E; lia|].
    destruct (k (i + S n)%nat c) eqn:Ek; [eauto|].
    apply IH; [|done].
    destruct (decide (n' = S n)) as [->|]; [|lia].
    rewrite Ek in Hk. by destruct Hk.
Qed.

(** Whatever the matcher returns comes from a span of the pattern. *)
Lemma rmatch_sound {R} r s i c
    (k : nat -> gmap nat (nat * nat) -> option R) x :
  rmatch r s i c k = Some x ->
  exists j c', Span s r i c j c' /\ k j c' = Some x.
Proof.
  revert i c k x.
  induction r as [|p|p lo hi|r1 IH1 r2 IH2|r1 IH1 r2 IH2|n r IH| | |];
    intros i c k x; simpl.
  - intros H. exists i, c. split; [constructor|done].
  - destruct (s !! i) as [ch|] eqn:Hch; [|discriminate].
    destruct (p ch) eqn:Hp; [|discriminate].
    intros H. exists (S i), c. split; [by econstructor|done].
  - intros H. apply backoff_sound in H as (n' & Hn' & Hk).
    exists (i + n')%nat, c. split; [constructor; lia|done].
  - intros H. apply IH1 in H as (j & c' & Hs1 & H).
    apply IH2 in H as (l & c'' & Hs2 & H).
    exists l, c''. split; [by econstructor|done].
  - destruct (rmatch r1 s i c k) eqn:E1.
    + intros [= <-]. apply IH1 in E1 as (j & c' & Hs & H).
      exists j, c'. split; [by constructor|done].
    + intros H. apply IH2 in H as (j & c' & Hs & H).
      exists j, c'. split; [by apply Span_AltR|done].
  - intros H. apply IH in H as (j & c' & Hs & H).
    exists j, (<[n := (i, j)]> c'). split; [by constructor|done].
  - destruct (at_boundary s i) eqn:E; [|discriminate].
    intros H. exists i, c. split; [by constructor|done].
  - destruct (at_bol s i) eqn:E; [|discriminate].
    intros H. exists i, c. split; [by constructor|done].
  - destruct (at_eol s i) eqn:E; [|discriminate].
    intros H. exists i, c. split; [by constructor|done].
Qed.

(** A span from which the continuation succeeds makes the matcher
    succeed (possibly on an earlier alternative). *)
Lemma rmatch_complete {R} r s i c j c'
    (k : nat -> gmap nat (nat * nat) -> option R) :
  Span s r i c j c' -> is_Some (k j c') -> is_Some (rmatch r s i c k).
Proof.
  intros Hs. revert k.
  induction Hs; intros k Hk; simpl.
  - done.
  - by rewrite H, H0.
  - by eapply backoff_complete.
  - apply IHHs1. by apply IHHs2.
  - destruct (rmatch r1 s i c k) eqn:E; [eauto|].
    specialize (IHHs k Hk). rewrite E in IHHs. by destruct IHHs.
  - destruct (rmatch r1 s i c k) eqn:E; [eauto|]. by apply IHHs.
  - by apply IHHs.
  - by rewrite H.
  - by rewrite H.
  - by rewrite H.
Qed.
End EngineFacts.

(** * Properties of slices and spans *)

Section SpanFacts.
Context {U : UnicodeDB}.
Implicit Types (s : str) (r : regex) (c : gmap nat (nat * nat)).

Lemma run_le p l cap : (run p l cap <= cap)%nat /\ (run p l cap <= length l)%nat.
Proof.
  revert l. induction cap as [|cap IH]; intros [|ch l]; simpl; try lia.
  destruct (p ch); [|lia]. destruct (IH l). lia.
Qed.

Lemma run_take p l cap n :
  (n <= run p l cap)%nat -> Forall (fun ch => p ch = true) (take n l).
Proof.
  revert l n. induction cap as [|cap IH]; intros [|ch l] [|n]; simpl;
    try (intros; constructor; fail); try lia.
  destruct (p ch) eqn:E; [|lia].
  intros Hn. constructor; [done|]. apply IH. lia.
Qed.



Lemma slice_app s i j l :
  (i <= j <= l)%nat -> slice s i j ++ slice s j l = slice s i l.
Proof.
  intros H. unfold slice.
  replace (l - i)%nat with ((j - i) + (l - j))%nat by lia.
  rewrite <- take_take_drop, drop_drop.
  by replace (i + (j - i))%nat with j by lia.
Qed.

Lemma slice_one s i ch : s !! i = Some ch -> slice s i (S i) = [ch].
Proof.
  intros H. unfold slice. replace (S i - i)%nat with 1%nat by lia.
  rewrite (drop_S _ _ _ H). done.
Qed.

Lemma slice_nil s i : slice s i i = [].
Proof. unfold slice. by rewrite Nat.sub_diag. Qed.

(** A span never moves backwards and stays inside the text. *)
Lemma Span_bounds s r i c j c' :
  Span s r i c j c' -> (i <= j)%nat /\ ((i <= length s)%nat -> (j <= length s)%nat).
Proof.
  induction 1; try (split; lia).
  - apply lookup_lt_Some in H. lia.
  - destruct (run_le p (drop i s) (default (length s) hi)) as [_ Hl].
    rewrite length_drop in Hl. lia.
Qed.

(** The text under a single-class repetition. *)
Lemma Span_Rep_inv s p lo hi i c j c' :
  Span s (Rep p lo hi) i c j c' ->
  c' = c /\ (i <= j)%nat /\ (lo <= j - i)%nat
  /\ (forall h, hi = Some h -> (j - i <= h)%nat)
  /\ length (slice s i j) = (j - i)%nat
  /\ Forall (fun ch => p ch = true) (slice s i j).
Proof.
  inversion 1; subst.
  assert (Hr := run_le p (drop i s) (default (length s) hi)).
  rewrite length_drop in Hr.
  replace (i + n - i)%nat with n by lia.
  repeat split; try lia.
  - intros h ->. simpl in *. lia.
  - unfold slice. replace (i + n - i)%nat with n by lia.
    rewrite length_take, length_drop. lia.
  - unfold slice. replace (i + n - i)%nat with n by lia.
    by eapply run_take.
Qed.

(** The text under a sequence of single-character classes. *)
Lemma Span_chars_inv (f : N -> N -> bool) s w i c j c' :
  Span s (seqs (map (fun a => Cls (f a)) w)) i c j c' ->
  c' = c /\ j = (i + length w)%nat
  /\ Forall2 (fun a ch => f a ch = true) w (slice s i j).
Proof.
  revert i. induction w as [|a w IH]; intros i; simpl.
  - inversion 1; subst. rewrite slice_nil. repeat split; [lia|constructor].
  - inversion 1 as [| | |? ? ? ? ? ? ? ? H1 H2| | | | | |]; subst.
    inversion H1; subst.
    apply IH in H2 as (-> & -> & Hall).
    repeat split; [simpl; lia|].
    rewrite <- (slice_app s i (S i) (S i + length w)) by lia.
    rewrite (slice_one s i ch) by done. simpl. by constructor.
Qed.

Lemma Span_lit_inv s w i c j c' :
  Span s (lit w) i c j c' ->
  c' = c /\ j = (i + length w)%nat /\ slice s i j = w.
Proof.
  intros H. apply Span_chars_inv in H as (-> & -> & Hall).
  repeat split.
  induction Hall as [|a ch w l Heq Hall IH]; [done|].
  apply N.eqb_eq in Heq. by subst.
Qed.

End SpanFacts.

(** * Properties of [search] and [finditer] *)

Section SearchFacts.
Context {U : UnicodeDB}.
Implicit Types (s : str) (r : regex).

Lemma match_at_inv r s i mo :
  match_at r s i = Some mo ->
  m_start mo = i /\ Span s r i ∅ (m_end mo) (m_groups mo).
Proof.
  intros H. apply rmatch_sound in H as (j & c' & Hs & [= <-]). done.
Qed.

Lemma match_at_complete r s i j c' :
  Span s r i ∅ j c' -> is_Some (match_at r s i).
Proof. intros H. eapply rmatch_complete; eauto. Qed.

Lemma first_match_inv r s ps mo :
  first_match r s ps = Some mo ->
  exists i, i ∈ ps /\ match_at r s i = Some mo.
Proof.
  induction ps as [|i ps IH]; simpl; [discriminate|].
  destruct (match_at r s i) eqn:E.
  - intros [= <-]. exists i. split; [left|done].
  - intros H. destruct (IH H) as (i' & Hin & Hm).
    exists i'. split; [by right|done].
Qed.


Lemma elem_of_positions s i : i ∈ positions s <-> (i <= length s)%nat.
Proof. unfold positions. rewrite elem_of_seq. lia. Qed.

(** [search] returns a span that starts inside the text. *)
Lemma search_inv r s mo :
  search r s = Some mo ->
  (m_start mo <= length s)%nat
  /\ Span s r (m_start mo) ∅ (m_end mo) (m_groups mo).
Proof.
  intros H. apply first_match_inv in H as (i & Hin & Hm).
  apply match_at_inv in Hm as [<- Hs].
  by apply elem_of_positions in Hin.
Qed.


Lemma scan_chained r s ps pos :
  Forall (fun i => (i <= length s)%nat) ps ->
  chained r s pos (scan r s ps pos).
Proof.
  intros Hps. revert pos.
  induction Hps as [|i ps Hi Hps IH]; intros pos; simpl; [done|].
  destruct (i <? pos)%nat eqn:E; [apply IH|].
  apply Nat.ltb_ge in E.
  destruct (match_at r s i) as [mo|] eqn:Em; [|apply IH].
  apply match_at_inv in Em as [Hst Hs].
  simpl. rewrite Hst. repeat split; [done|done|done|].
  assert (Hc := IH (if (m_end mo =? i)%nat then S (m_end mo) else m_end mo)).
  revert Hc. generalize (scan r s ps
    (if (m_end mo =? i)%nat then S (m_end mo) else m_end mo)).
  intros ms. destruct ms as [|m1 ms]; [done|]. simpl.
  intros (H1 & H2 & H3 & H4). repeat split; try done.
  destruct (m_end mo =? i)%nat; lia.
Qed.

Lemma scan_nil r s ps pos :
  scan r s ps pos = [] <->
  forall i, i ∈ ps -> (pos <= i)%nat -> match_at r s i = None.
Proof.
  revert pos. induction ps as [|i ps IH]; intros pos; simpl.
  - split; [|done]. intros _ i Hi. by apply elem_of_nil in Hi.
  - destruct (i <? pos)%nat eqn:E.
    + apply Nat.ltb_lt in E. rewrite IH. split.
      * intros H i' Hi' Hpos.
        apply elem_of_cons in Hi' as [->|Hi']; [lia|by apply H].
      * intros H i' Hi' Hpos. apply H; [by right|done].
    + apply Nat.ltb_ge in E. destruct (match_at r s i) eqn:Em.
      * split; [done|]. intros H. rewrite H in Em; [done|left|done].
      * rewrite IH. split.
        -- intros H i' Hi' Hpos.
           apply elem_of_cons in Hi' as [->|Hi']; [done|by apply H].
        -- intros H i' Hi' Hpos. apply H; [by right|done].
Qed.

(** [finditer] finds nothing exactly when the pattern has no span that
    starts inside the text. *)
Lemma finditer_nil r s :
  finditer r s = [] <->
  forall i j g, (i <= length s)%nat -> ~ Span s r i ∅ j g.
Proof.
  unfold finditer. rewrite scan_nil. split.
  - intros H i j g Hi Hs.
    destruct (match_at_complete _ _ _ _ _ Hs) as [mo Hmo].
    rewrite H in Hmo; [done| by apply elem_of_positions | lia].
  - intros H i Hi _. apply elem_of_positions in Hi.
    destruct (match_at r s i) as [mo|] eqn:Em; [|done].
    apply match_at_inv in Em as [_ Hs]. by apply H in Hs.
Qed.

Lemma finditer_chained r s : chained r s 0 (finditer r s).
Proof.
  apply scan_chained. apply Forall_forall. intros i Hi.
  by apply elem_of_positions.
Qed.

(** In a chain, a match ends where the next one starts or earlier, and
    the last one ends inside the text. *)
Lemma chained_lookup r s pos ms i mo :
  chained r s pos ms -> ms !! i = Some mo ->
  (pos <= m_start mo <= m_end mo)%nat /\ (m_end mo <= length s)%nat
  /\ Span s r (m_start mo) ∅ (m_end mo) (m_groups mo)
  /\ match ms !! S i with
     | Some m' => (m_end mo <= m_start m')%nat /\ (m_start m' <= length s)%nat
     | None => True
     end.
Proof.
  revert pos i. induction ms as [|m0 ms IH]; intros pos i; [done|].
  simpl. intros (H1 & H2 & H3 & H4).
  destruct (Span_bounds _ _ _ _ _ _ H3) as [Hb1 Hb2].
  destruct i as [|i]; simpl.
  - intros [= <-]. repeat split; try lia; try done.
    destruct ms as [|m' ms]; simpl; [done|].
    simpl in H4. lia.
  - intros Hl. destruct (IH _ _ H4 Hl) as (? & ? & ? & ?).
    repeat split; try lia; done.
Qed.
End SearchFacts.

(** * The query classifier *)

Ltac span_split :=
  repeat match goal with
  | H : Span _ (Seq _ _) _ _ _ _ |- _ => inversion H; subst; clear H
  | H : Span _ Eps _ _ _ _ |- _ => inversion H; subst; clear H
  | H : Span _ (Grp _ _) _ _ _ _ |- _ => inversion H; subst; clear H
  | H : Span _ WordB _ _ _ _ |- _ => inversion H; subst; clear H
  | H : Span _ BolM _ _ _ _ |- _ => inversion H; subst; clear H
  | H : Span _ EolM _ _ _ _ |- _ => inversion H; subst; clear H
  end.

Section ClassifierFacts.
Context {U : UnicodeDB}.

Lemma starts_with_app w t : starts_with w (w ++ t) = true.
Proof. induction w as [|a w IH]; simpl; [done|]. by rewrite N.eqb_refl. Qed.

Lemma str_in_unfold w s :
  str_in w s
  = starts_with w s || match s with [] => false | _ :: t => str_in w t end.
Proof. by destruct s. Qed.

Lemma str_in_app w pre post : str_in w (pre ++ w ++ post) = true.
Proof.
  induction pre as [|a pre IH].
  - simpl app. by rewrite str_in_unfold, starts_with_app.
  - change ((a :: pre) ++ w ++ post) with (a :: (pre ++ w ++ post)).
    rewrite str_in_unfold, IH. apply orb_true_r.
Qed.

Lemma str_in_slice s i j :
  (i <= j <= length s)%nat -> str_in (slice s i j) s = true.
Proof.
  intros H.
  rewrite <- (take_drop i s) at 2.
  rewrite <- (take_drop (j - i) (drop i s)).
  apply str_in_app.
Qed.

Lemma citation_spans ql i a b e c0 c1 c2 c3 :
  Span ql (lit (py "7:")) i c0 a c1 ->
  Span ql (Rep is_digit 1 (Some 3%nat)) a c1 b c2 ->
  Span ql (Rep az 0 (Some 1%nat)) b c2 e c3 ->
  (i <= length ql)%nat ->
  c3 = c0 /\ (i <= e <= length ql)%nat /\ article_id_shape (slice ql i e).
Proof.
  intros H1 H2 H3 Hi.
  pose proof (Span_bounds _ _ _ _ _ _ H1) as [_ Hb1].
  pose proof (Span_bounds _ _ _ _ _ _ H2) as [_ Hb2].
  pose proof (Span_bounds _ _ _ _ _ _ H3) as [_ Hb3].
  apply Span_lit_inv in H1 as (-> & -> & Hlit).
  apply Span_Rep_inv in H2 as (-> & Hd1 & Hd2 & Hd3 & Hd4 & Hd5).
  apply Span_Rep_inv in H3 as (-> & Ha1 & Ha2 & Ha3 & Ha4 & Ha5).
  specialize (Hd3 _ eq_refl). specialize (Ha3 _ eq_refl).
  change (length (py "7:")) with 2%nat in *.
  split; [done|]. split; [lia|].
  exists (slice ql (i + 2) b), (slice ql b e). repeat split.
  - rewrite <- Hlit at 1. rewrite !slice_app by lia. done.
  - lia.
  - lia.
  - done.
  - destruct (slice ql b e) as [|ch [|ch' l]] eqn:E; [by left| |].
    + right. exists ch. split; [done|]. by inversion Ha5.
    + simpl in Ha4. lia.
Qed.

(** A match of the citation pattern captures a book-7 citation. *)
Lemma article_id_group ql m :
  search re_article_id ql = Some m ->
  article_id_shape (group ql m 1) /\ str_in (group ql m 1) ql = true.
Proof.
  intros H. apply search_inv in H as [Hi Hs].
  destruct m as [i j g]. simpl in *.
  unfold re_article_id in Hs. cbn [seqs foldr] in Hs. span_split.
  match goal with
  | H1 : Span _ (lit _) _ _ _ _, H2 : Span _ (Rep is_digit _ _) _ _ _ _,
    H3 : Span _ (Rep az _ _) _ _ _ _, Hi : (_ <= length _)%nat |- _ =>
    destruct (citation_spans _ _ _ _ _ _ _ _ _ H1 H2 H3 Hi)
      as (-> & Hle & Hshape)
  end.
  unfold group. simpl. rewrite lookup_insert_eq.
  split; [done|]. by apply str_in_slice.
Qed.






(** The article keywords as code points; the last two are Cyrillic. *)
Lemma art_keywords_code_points :
  art_keywords
  = [[97; 114; 116; 46]; [97; 114; 116; 105; 107; 101; 108];
     [97; 114; 116; 105; 99; 108; 101]; [1095; 1083; 46];
     [1095; 1083; 1077; 1085]].
Proof. reflexivity. Qed.


End ClassifierFacts.

Section ClassifierClaims.
Context {U : UnicodeDB}.


Lemma q_cobweb_classified :
  search re_has_num (lower q_cobweb) = None
  /\ existsb (fun w => str_in w (lower q_cobweb)) bw_keywords = false
  /\ _extract_article q_cobweb = None
  /\ _is_law_query q_cobweb = true.
Proof. repeat split; vm_compute; reflexivity. Qed.

(** An extracted article id is never the empty string. *)
Lemma extract_article_truthy q a :
  _extract_article q = Some a -> truthy (Some a) = true.
Proof.
  unfold _extract_article.
  destruct (search re_article_id (lower q)) as [m|] eqn:E1.
  - intros [= <-]. apply article_id_group in E1 as [(ds & l & -> & _) _].
    done.
  - destruct (search re_article_word (lower q)); [|discriminate].
    by intros [= <-].
Qed.


(** C9: a question whose lowercased text contains ["bw"] anywhere and one
    of the article keywords is a statute query; so is
    ["Is there an article on cobweb removal?"], which has no article
    number and no civil-code phrase. *)
Theorem bw_substring_with_article_keyword (q w : str) :
  (str_in (py "bw") (lower q) = true -> w ∈ art_keywords ->
   str_in w (lower q) = true -> _is_law_query q = true)
  /\ (search re_has_num (lower q_cobweb) = None
      /\ existsb (fun w => str_in w (lower q_cobweb)) bw_keywords = false
      /\ _extract_article q_cobweb = None
      /\ _is_law_query q_cobweb = true).
Proof.
  split; [|apply q_cobweb_classified].
  intros Hbw Hw Hin.
  assert (Hart : existsb (fun w => str_in w (lower q)) art_keywords = true).
  { apply existsb_exists. exists w. split; [|done].
    by apply list_elem_of_In. }
  unfold _is_law_query. cbv zeta.
  rewrite Hbw, Hart, orb_true_r. apply orb_true_r.
Qed.
End ClassifierClaims.

(** * The hybrid retrieval router *)

Section MergeFacts.
Implicit Types (seen : gset (option value * option value * str))
  (l merged : list Document).

Lemma fresh_app seen l1 l2 :
  fresh seen (l1 ++ l2) = fresh seen l1 ++ fresh (seen ∪ keys_of l1) l2.
Proof.
  revert seen. induction l1 as [|d l1 IH]; intros seen; simpl.
  - f_equal. unfold keys_of. simpl. set_solver.
  - assert (Hk : forall s' : gset (option value * option value * str),
              s' ∪ keys_of (d :: l1) = ({[dedup_key d]} ∪ s') ∪ keys_of l1).
    { intros s'. unfold keys_of. simpl. set_solver. }
    destruct (decide (dedup_key d ∈ seen)) as [Hin|Hin].
    + rewrite IH. do 2 f_equal. rewrite Hk. set_solver.
    + simpl. rewrite IH. do 3 f_equal. by rewrite Hk.
Qed.

Lemma fresh_notin seen d t :
  dedup_key d ∉ seen ->
  fresh seen (d :: t) = d :: fresh ({[dedup_key d]} ∪ seen) t.
Proof. intros H. simpl. by rewrite decide_False. Qed.

Lemma fresh_in seen d t :
  dedup_key d ∈ seen -> fresh seen (d :: t) = fresh seen t.
Proof. intros H. simpl. by rewrite decide_True. Qed.

(** [_add] appends the fresh hits of [seq] until [merged] has [k]
    elements; when it stops short of [k], every key of [seq] is seen. *)
Lemma _add_spec (k : Z) seq seen merged :
  (Z.of_nat (length merged) < k)%Z ->
  snd (_add k seq seen merged)
  = merged ++ take (Z.to_nat k - length merged) (fresh seen seq)
  /\ ((Z.of_nat (length (snd (_add k seq seen merged))) < k)%Z ->
      fst (_add k seq seen merged) = seen ∪ keys_of seq).
Proof.
  revert seen merged.
  induction seq as [|d rest IH]; intros seen merged Hlt; simpl.
  - rewrite take_nil, app_nil_r. split; [done|].
    intros _. unfold keys_of. simpl. set_solver.
  - assert (Hk : forall s' : gset (option value * option value * str),
              s' ∪ keys_of (d :: rest)
              = ({[dedup_key d]} ∪ s') ∪ keys_of rest).
    { intros s'. unfold keys_of. simpl. set_solver. }
    destruct (decide (dedup_key d ∈ seen)) as [Hin|Hin].
    + destruct (IH seen merged Hlt) as [IH1 IH2]. split; [done|].
      intros H. rewrite IH2 by done. rewrite Hk. set_solver.
    + rewrite length_app. simpl.
      destruct (k <=? Z.of_nat (length merged + 1))%Z eqn:E; simpl.
      * apply Z.leb_le in E. split; [|rewrite length_app; simpl; lia].
        replace (Z.to_nat k - length merged)%nat with 1%nat by lia.
        simpl. by rewrite take_0.
      * apply Z.leb_gt in E.
        destruct (IH ({[dedup_key d]} ∪ seen) (merged ++ [d])) as [IH1 IH2].
        { rewrite length_app. simpl. lia. }
        split.
        -- rewrite IH1, length_app. simpl.
           replace (Z.to_nat k - length merged)%nat
             with (S (Z.to_nat k - (length merged + 1)))%nat by lia.
           simpl. by rewrite <- app_assoc.
        -- intros H. rewrite IH2 by done. by rewrite Hk.
Qed.
End MergeFacts.

Section RouterClaims.
Context {U : UnicodeDB}.
Variable index : Query -> list Document.

Lemma merge_spec_example (A B C D : Document) :
  NoDup (map dedup_key [A; B; C; D]) ->
  merge_spec 3 [A; B] [B; C; D] = [A; B; C].
Proof.
  intros Hnd. simpl in Hnd.
  apply NoDup_cons in Hnd as [HA Hnd].
  apply NoDup_cons in Hnd as [HB Hnd].
  apply NoDup_cons in Hnd as [HC _].
  assert (HAB : dedup_key B <> dedup_key A)
    by (intros E; apply HA; rewrite E; left).
  assert (HAC : dedup_key C <> dedup_key A)
    by (intros E; apply HA; rewrite E; right; left).
  assert (HBC : dedup_key C <> dedup_key B)
    by (intros E; apply HB; rewrite E; left).
  clear HA HB HC.
  unfold merge_spec. change ([A; B] ++ [B; C; D]) with [A; B; B; C; D].
  rewrite (fresh_notin _ A) by set_solver.
  rewrite (fresh_notin _ B) by set_solver.
  rewrite (fresh_in _ B) by set_solver.
  rewrite (fresh_notin _ C) by set_solver.
  done.
Qed.

(** C4: for a statute question the narrow search is issued first, with
    [max(2, k // 2)] results and the filter [{article: article_id}] when
    an article id was extracted and [{category: "laws"}] otherwise; the
    broad search follows with the full [k] and no filter; no other search
    is issued. *)
Theorem ask_issues_narrow_then_broad (cfg : AppConfig) (q : str) :
  _is_law_query q = true ->
  snd (ask index cfg q []) = [narrow_query (k cfg) q; broad_query (k cfg) q].
Proof.
  intros Hlaw. unfold ask, narrow_query, broad_query. cbv zeta.
  rewrite Hlaw.
  unfold bind, similarity_search, ret. cbv zeta.
  assert (Hw : (if truthy (_extract_article q)
                then {["article"%string := VStr (default [] (_extract_article q))]}
                else {["category"%string := VStr (py "laws")]})
               = match _extract_article q with
                 | Some a => {["article"%string := VStr a]}
                 | None => ({["category"%string := VStr (py "laws")]}
                            : gmap string value)
                 end).
  { destruct (_extract_article q) as [a|] eqn:E; [|done].
    by rewrite (extract_article_truthy _ _ E). }
  rewrite Hw. simpl.
  by destruct (_add _ _ _ _).
Qed.

(** C1: for a statute question and a result count [k >= 1] the retrieval
    result is the narrow hits followed by the broad hits, each in rank
    order, with only the first hit of every key
    [(source, page, first 64 characters)] kept, cut after [k] hits; it
    never has more than [k] hits; narrow hits [A, B] and broad hits
    [B, C, D] with [k = 3] give [A, B, C]. *)
Theorem ask_merges_narrow_before_broad (cfg : AppConfig) (q : str) :
  _is_law_query q = true -> (1 <= k cfg)%Z ->
  fst (ask index cfg q [])
  = merge_spec (Z.to_nat (k cfg)) (index (narrow_query (k cfg) q))
      (index (broad_query (k cfg) q))
  /\ (length (fst (ask index cfg q [])) <= Z.to_nat (k cfg))%nat
  /\ forall A B C D : Document,
       NoDup (map dedup_key [A; B; C; D]) -> k cfg = 3%Z ->
       index (narrow_query (k cfg) q) = [A; B] ->
       index (broad_query (k cfg) q) = [B; C; D] ->
       fst (ask index cfg q []) = [A; B; C].
Proof.
  intros Hlaw Hk. set (k := k cfg) in *.
  assert (Heq : fst (ask index cfg q [])
                = merge_spec (Z.to_nat k) (index (narrow_query k q))
                    (index (broad_query k q))).
  { unfold ask, narrow_query, broad_query. cbv zeta. fold k. rewrite Hlaw.
    unfold bind, similarity_search, ret. cbv zeta.
    assert (Hw : (if truthy (_extract_article q)
                  then {["article"%string := VStr (default [] (_extract_article q))]}
                  else {["category"%string := VStr (py "laws")]})
                 = match _extract_article q with
                   | Some a => {["article"%string := VStr a]}
                   | None => ({["category"%string := VStr (py "laws")]}
                              : gmap string value)
                   end).
    { destruct (_extract_article q) as [a|] eqn:E; [|done].
      by rewrite (extract_article_truthy _ _ E). }
    rewrite Hw. simpl.
    set (law := index _). set (gen := index _).
    destruct (_add_spec k law ∅ []) as [H1 H2]; [simpl; lia|].
    destruct (_add k law ∅ []) as [seen merged] eqn:Eadd. simpl in *.
    rewrite Nat.sub_0_r in H1.
    unfold merge_spec. rewrite fresh_app, take_app.
    destruct (Z.of_nat (length merged) <? k)%Z eqn:E; simpl.
    - apply Z.ltb_lt in E.
      destruct (_add_spec k gen seen merged E) as [H3 _].
      rewrite H3, H2 by done.
      assert (Hlen : (length (fresh ∅ law) < Z.to_nat k)%nat).
      { rewrite H1, length_take in E. lia. }
      rewrite take_ge in H1 by lia.
      rewrite (take_ge (fresh ∅ law)) by lia. by rewrite H1.
    - apply Z.ltb_ge in E.
      assert (Hlen : (Z.to_nat k <= length (fresh ∅ law))%nat).
      { rewrite H1, length_take in E. lia. }
      replace (Z.to_nat k - length (fresh ∅ law))%nat with 0%nat by lia.
      by rewrite take_0, app_nil_r. }
  split; [exact Heq|]. split.
  - rewrite Heq. unfold merge_spec. rewrite length_take. lia.
  - intros A B C D Hnd Hk3 HA HB. rewrite Heq, HA, HB, Hk3.
    by apply merge_spec_example.
Qed.
End RouterClaims.

(** * Stripping *)

Section StripFacts.
Implicit Types (l : str).

Lemma blank_or_ink l : Forall blank l \/ has_ink l.
Proof.
  induction l as [|c l [IH|(c' & Hin & Hc')]].
  - left. constructor.
  - destruct (is_space c) eqn:E.
    + left. by constructor.
    + right. exists c. split; [left|done].
  - right. exists c'. split; [by right|done].
Qed.

Lemma lstrip_split l :
  exists pre, l = pre ++ lstrip l /\ Forall blank pre.
Proof.
  induction l as [|c l (pre & Hl & Hpre)]; simpl.
  - exists []. split; [done|constructor].
  - destruct (is_space c) eqn:E.
    + exists (c :: pre). split; [simpl; by f_equal|by constructor].
    + exists []. split; [done|constructor].
Qed.

Lemma lstrip_blank l1 l2 : Forall blank l1 -> lstrip (l1 ++ l2) = lstrip l2.
Proof.
  induction 1 as [|c l1 Hc _ IH]; simpl; [done|].
  unfold blank in Hc. by rewrite Hc.
Qed.

Lemma lstrip_ink l1 l2 : has_ink l1 -> lstrip (l1 ++ l2) = lstrip l1 ++ l2.
Proof.
  intros (c & Hin & Hc).
  induction l1 as [|a l1 IH]; [by apply elem_of_nil in Hin|]. simpl.
  destruct (is_space a) eqn:E; [|done].
  apply IH. apply elem_of_cons in Hin as [->|Hin]; [congruence|done].
Qed.

Lemma lstrip_has_ink l : has_ink l -> has_ink (lstrip l).
Proof.
  intros (c & Hin & Hc). exists c. split; [|done].
  destruct (lstrip_split l) as (pre & Hl & Hpre).
  rewrite Hl in Hin. apply elem_of_app in Hin as [Hin|Hin]; [|done].
  rewrite Forall_forall in Hpre. specialize (Hpre _ Hin).
  unfold blank in Hpre. congruence.
Qed.

Lemma has_ink_reverse l : has_ink l -> has_ink (reverse l).
Proof.
  intros (c & Hin & Hc). exists c. split; [|done]. by apply elem_of_reverse.
Qed.

Lemma has_ink_nonempty l : has_ink l -> l <> [].
Proof. intros (c & Hin & _) ->. by apply elem_of_nil in Hin. Qed.

Lemma rstrip_has_ink l : has_ink l -> has_ink (rstrip l).
Proof.
  intros H. unfold rstrip.
  by apply has_ink_reverse, lstrip_has_ink, has_ink_reverse.
Qed.

Lemma rstrip_prefix l : rstrip l `prefix_of` l.
Proof.
  destruct (lstrip_split (reverse l)) as (pre & Hl & _).
  exists (reverse pre). unfold rstrip.
  rewrite <- reverse_app, <- Hl. by rewrite reverse_involutive.
Qed.

Lemma rstrip_blank l1 l2 : Forall blank l2 -> rstrip (l1 ++ l2) = rstrip l1.
Proof.
  intros H. unfold rstrip. rewrite reverse_app, lstrip_blank; [done|].
  by apply Forall_reverse.
Qed.

Lemma rstrip_ink l1 l2 : has_ink l2 -> rstrip (l1 ++ l2) = l1 ++ rstrip l2.
Proof.
  intros H. unfold rstrip.
  rewrite reverse_app, lstrip_ink by (by apply has_ink_reverse).
  by rewrite reverse_app, reverse_involutive.
Qed.

(** Text with a non-blank character keeps it through [strip], and what
    follows the text does not change its stripped head. *)
Lemma strip_has_ink l : has_ink l -> has_ink (strip l).
Proof. intros H. by apply rstrip_has_ink, lstrip_has_ink. Qed.

Lemma strip_prefix_app l1 l2 :
  has_ink l1 -> strip l1 `prefix_of` strip (l1 ++ l2).
Proof.
  intros H. unfold strip. rewrite lstrip_ink by done.
  destruct (blank_or_ink l2) as [Hb|Hi].
  - by rewrite rstrip_blank.
  - rewrite rstrip_ink by done.
    apply prefix_app_r, rstrip_prefix.
Qed.
End StripFacts.

(** * The article segmenter *)

Section SegmenterFacts.
Context {U : UnicodeDB}.

Lemma slice_head s i j ch t : slice s i j = ch :: t -> s !! i = Some ch.
Proof.
  unfold slice. intros H.
  assert (Hl : take (j - i) (drop i s) !! 0%nat = Some ch) by by rewrite H.
  apply lookup_take_Some in Hl as [Hl _].
  rewrite lookup_drop, Nat.add_0_r in Hl. done.
Qed.

Lemma elem_of_slice s i j p ch :
  (i <= p < j)%nat -> s !! p = Some ch -> ch ∈ slice s i j.
Proof.
  intros Hp Hch. unfold slice. apply list_elem_of_lookup.
  exists (p - i)%nat. apply lookup_take_Some. split; [|lia].
  rewrite lookup_drop. by replace (i + (p - i))%nat with p by lia.
Qed.

Lemma ieq_a_not_blank ch : ieq 97 ch = true -> is_space ch = false.
Proof.
  unfold ieq. rewrite !orb_true_iff, !andb_true_iff, !N.eqb_eq.
  intros [[[[->| [_ ->]]|[? _]]|[? _]]|[? _]]; done.
Qed.

(** A heading match: anchored at a line start, not empty, with a
    character that is not blank, and with both groups set. *)
Lemma artikel_span text s e g :
  Span text re_artikel s ∅ e g ->
  at_bol text s = true /\ (s < e)%nat /\ has_ink (slice text s e)
  /\ exists a b, g = <[1%nat := (s, b)]> (<[2%nat := (a, b)]> ∅)
                 /\ (s <= a < b)%nat /\ (b <= e)%nat
                 /\ Forall (fun ch => is_digit ch || az_i ch = true)
                      (slice text a b).
Proof.
  intros Hs. unfold re_artikel in Hs. cbn [seqs foldr] in Hs. span_split.
  match goal with
  | Hsp0 : Span _ (Rep is_space 0 None) _ _ _ _,
    Hlit : Span _ (liti _) _ _ _ _,
    Hsp1 : Span _ (Rep is_space 1 None) _ _ _ _,
    Hdig : Span _ (Rep is_digit _ _) _ _ _ _,
    Haz : Span _ (Rep az_i _ _) _ _ _ _,
    Hdot : Span _ (Rep dot _ _) _ _ _ _ |- _ =>
    apply Span_Rep_inv in Hsp0 as (-> & Hp0 & _);
    unfold liti in Hlit;
    apply Span_chars_inv in Hlit as (-> & -> & Hall);
    apply Span_Rep_inv in Hsp1 as (-> & Hp1 & Hp1' & _);
    apply Span_Rep_inv in Hdig as (-> & Hp2 & Hp2' & _ & _ & Hdigits);
    apply Span_Rep_inv in Haz as (-> & Hp3 & _ & _ & _ & Hletters);
    apply Span_Rep_inv in Hdot as (-> & Hp4 & _)
  end.
  let w := eval vm_compute in (py "artikel") in
    change (py "artikel") with w in *.
  simpl length in *.
  inversion Hall as [|? ch ? t Hch _ Hw Ht]; subst.
  symmetry in Ht. apply slice_head in Ht.
  split; [done|]. split; [lia|]. split.
  - exists ch. split; [|by apply ieq_a_not_blank].
    eapply elem_of_slice; [|done]. lia.
  - do 2 eexists. split; [done|]. split; [lia|]. split; [lia|].
    match goal with
    | H : Forall _ (slice text ?a ?m), H' : Forall _ (slice text ?m ?b)
      |- Forall _ (slice text ?a ?b) =>
      rewrite <- (slice_app text a m b) by lia; apply Forall_app; split;
      [eapply Forall_impl; [exact H|]|eapply Forall_impl; [exact H'|]];
      simpl; intros ? ->; rewrite ?orb_true_r; done
    end.
Qed.
(** A book token: the letters of [boek] in either case, then the digits
    of group 1, at least one. *)
Lemma boek_span src i j g :
  Span src re_boek i ∅ j g ->
  g = <[1%nat := ((i + 4)%nat, j)]> ∅ /\ (i + 4 < j)%nat
  /\ Forall2 (fun a ch => ieq a ch = true) (py "boek") (slice src i (i + 4))
  /\ Forall (fun ch => is_digit ch = true) (slice src (i + 4) j)
  /\ length (slice src (i + 4) j) = (j - (i + 4))%nat.
Proof.
  intros Hs. unfold re_boek in Hs. cbn [seqs foldr] in Hs. span_split.
  match goal with
  | Hlit : Span _ (liti _) _ _ _ _, Hdig : Span _ (Rep is_digit _ _) _ _ _ _
    |- _ =>
    unfold liti in Hlit;
    apply Span_chars_inv in Hlit as (-> & -> & Hall);
    apply Span_Rep_inv in Hdig as (-> & Hp & Hp' & _ & Hlen & Hdigits)
  end.
  change (length (py "boek")) with 4%nat in *.
  repeat split; try done. lia.
Qed.

Lemma split_unfold d m0 ms :
  finditer re_artikel (page_content d) = m0 :: ms ->
  _split_law_document d
  = imap (article_doc (page_content d) (metadata d)
            (match search re_boek (source_path (metadata d)) with
             | Some m => Some (group (source_path (metadata d)) m 1)
             | None => None
             end)
            (map (fun m => (m_start m, m_end m, group (page_content d) m 2))
               (m0 :: ms)))
      (map (fun m => (m_start m, m_end m, group (page_content d) m 2))
         (m0 :: ms)).
Proof. intros H. unfold _split_law_document. cbv zeta. by rewrite H. Qed.

Lemma split_lookup d i :
  finditer re_artikel (page_content d) <> [] ->
  _split_law_document d !! i
  = (fun m =>
       article_doc (page_content d) (metadata d)
         (match search re_boek (source_path (metadata d)) with
          | Some m => Some (group (source_path (metadata d)) m 1)
          | None => None
          end)
         (map (fun m => (m_start m, m_end m, group (page_content d) m 2))
            (finditer re_artikel (page_content d)))
         i (m_start m, m_end m, group (page_content d) m 2))
    <$> finditer re_artikel (page_content d) !! i.
Proof.
  intros Hne.
  destruct (finditer re_artikel (page_content d)) as [|m0 ms] eqn:E;
    [done|].
  rewrite (split_unfold _ _ _ E), list_lookup_imap, list_lookup_fmap.
  by destruct ((m0 :: ms) !! i).
Qed.

Lemma split_lookup_Some d i doc :
  finditer re_artikel (page_content d) <> [] ->
  _split_law_document d !! i = Some doc ->
  exists m,
    finditer re_artikel (page_content d) !! i = Some m
    /\ doc = article_doc (page_content d) (metadata d)
               (match search re_boek (source_path (metadata d)) with
                | Some m => Some (group (source_path (metadata d)) m 1)
                | None => None
                end)
               (map (fun m => (m_start m, m_end m,
                               group (page_content d) m 2))
                  (finditer re_artikel (page_content d)))
               i (m_start m, m_end m, group (page_content d) m 2).
Proof.
  intros Hne Hi. rewrite split_lookup in Hi by done.
  apply fmap_Some in Hi as (m & Hm & ->). by exists m.
Qed.

Lemma article_doc_text text meta book ms i m :
  page_content
    (article_doc text meta book
       (map (fun m => (m_start m, m_end m, group text m 2)) ms)
       i (m_start m, m_end m, group text m 2))
  = strip (slice text (m_start m) (next_start text ms i)).
Proof.
  unfold article_doc, next_start. cbv zeta. simpl.
  rewrite list_lookup_fmap, Nat.add_1_r.
  by destruct (ms !! S i).
Qed.

Lemma article_doc_meta text meta book idxs i s e num :
  let md := metadata (article_doc text meta book idxs i (s, e, num)) in
  md !! "article_num"%string = Some (VStr num)
  /\ (truthy book = true ->
      md !! "book"%string = Some (VStr (default [] book))
      /\ md !! "article"%string
         = Some (VStr (default [] book ++ py ":" ++ num)))
  /\ (truthy book = false ->
      md !! "book"%string = meta !! "book"%string
      /\ md !! "article"%string = Some (VStr num)).
Proof.
  unfold article_doc. cbv zeta. simpl.
  destruct (truthy book); simpl.
  - rewrite !lookup_insert_ne by done.
    rewrite !lookup_insert_eq. rewrite lookup_insert_ne by done.
    rewrite lookup_insert_eq. repeat split; done.
  - rewrite lookup_insert_ne by done. rewrite !lookup_insert_eq.
    repeat split; try done. by rewrite !lookup_insert_ne.
Qed.

(** The slice of a heading: the heading line, then the text up to the
    next heading. *)
Lemma heading_slice text ms i m :
  ms = finditer re_artikel text -> ms !! i = Some m ->
  (m_start m < m_end m)%nat
  /\ (m_end m <= next_start text ms i <= length text)%nat
  /\ at_bol text (m_start m) = true
  /\ has_ink (slice text (m_start m) (m_end m))
  /\ slice text (m_start m) (next_start text ms i)
     = slice text (m_start m) (m_end m)
       ++ slice text (m_end m) (next_start text ms i).
Proof.
  intros -> Hm.
  destruct (chained_lookup _ _ _ _ _ _ (finditer_chained re_artikel text) Hm)
    as (Hpos & Hend & Hs & Hnext).
  apply artikel_span in Hs as (Hbol & Hlt & Hink & _).
  unfold next_start.
  assert (Hn : (m_end m
                <= match finditer re_artikel text !! S i with
                   | Some m' => m_start m'
                   | None => length text
                   end <= length text)%nat).
  { destruct (finditer re_artikel text !! S i); lia. }
  repeat split; try done; try lia.
  rewrite slice_app; [done|lia].
Qed.
End SegmenterFacts.

Section SegmenterClaims.
Context {U : UnicodeDB}.

Lemma law_example_split :
  map (fun doc => (page_content doc, metadata doc !! "article_num"%string))
      (_split_law_document law_example)
  = [(py "Artikel 244
Body1", Some (VStr (py "244")));
     (py "Artikel 244a
Body2", Some (VStr (py "244a")))].
Proof. vm_compute. reflexivity. Qed.

(** C3 (amended): when the heading pattern matches, there is one
    sub-document per match, in order; the text of each is the stripped
    slice that starts at the START of its heading match (a line start)
    and ends at the start of the next match, or at the end of the text
    for the last one, so it is the heading line followed by the body;
    its [article_num] is the number of the heading. The text
    ["Artikel 244\nBody1\nArtikel 244a\nBody2"] gives two sub-documents
    with [article_num] ["244"] and ["244a"] and the texts
    ["Artikel 244\nBody1"] and ["Artikel 244a\nBody2"]. *)
Theorem split_slices_from_heading_start (d : Document) :
  (finditer re_artikel (page_content d) <> [] ->
   length (_split_law_document d)
   = length (finditer re_artikel (page_content d))
   /\ forall i m,
        finditer re_artikel (page_content d) !! i = Some m ->
        exists doc,
          _split_law_document d !! i = Some doc
          /\ page_content doc
             = strip (slice (page_content d) (m_start m) (m_end m)
                      ++ slice (page_content d) (m_end m)
                           (next_start (page_content d)
                              (finditer re_artikel (page_content d)) i))
          /\ at_bol (page_content d) (m_start m) = true
          /\ (m_start m < m_end m)%nat
          /\ (m_end m
              <= next_start (page_content d)
                   (finditer re_artikel (page_content d)) i
              <= length (page_content d))%nat
          /\ metadata doc !! "article_num"%string
             = Some (VStr (group (page_content d) m 2)))
  /\ map (fun doc => (page_content doc, metadata doc !! "article_num"%string))
         (_split_law_document law_example)
     = [(py "Artikel 244
Body1", Some (VStr (py "244")));
        (py "Artikel 244a
Body2", Some (VStr (py "244a")))].
Proof.
  split; [|apply law_example_split].
  intros Hne. split.
  - destruct (finditer re_artikel (page_content d)) as [|m0 ms] eqn:E;
      [done|].
    rewrite (split_unfold _ _ _ E), length_imap, length_map. done.
  - intros i m Hm. eexists. split.
    + rewrite split_lookup by done. rewrite Hm. reflexivity.
    + destruct (heading_slice _ _ _ _ eq_refl Hm)
        as (Hlt & Hn & Hbol & _ & Happ).
      rewrite article_doc_text, Happ.
      repeat split; try done; try lia.
      apply article_doc_meta.
Qed.

(** C6: a law document whose text has no heading match (the scan finds
    none; equally, the heading pattern has no span that starts in the
    text) is returned as the single element of the result, unchanged. *)
Theorem split_without_heading (d : Document) :
  (finditer re_artikel (page_content d) = [] -> _split_law_document d = [d])
  /\ ((forall i j g, (i <= length (page_content d))%nat ->
                     ~ Span (page_content d) re_artikel i ∅ j g) ->
      _split_law_document d = [d]).
Proof.
  assert (H : finditer re_artikel (page_content d) = [] ->
              _split_law_document d = [d]).
  { intros H. unfold _split_law_document. cbv zeta. by rewrite H. }
  split; [exact H|]. intros Hno. by apply H, finditer_nil.
Qed.

(** C8: the book is looked up once, in the source path of the document,
    as the letters [Boek] in either case followed by digits. When the
    token is there, every sub-document has [book] equal to those digits
    [N] and [article] equal to ["N:article_num"]; when it is not, the
    segmenter sets no [book] and [article] is the bare article number. *)
Theorem split_book_metadata (d doc : Document) :
  finditer re_artikel (page_content d) <> [] ->
  doc ∈ _split_law_document d ->
  exists num,
    metadata doc !! "article_num"%string = Some (VStr num)
    /\ match search re_boek (source_path (metadata d)) with
       | Some mb =>
         let N := group (source_path (metadata d)) mb 1 in
         N <> []
         /\ Forall (fun ch => is_digit ch = true) N
         /\ Forall2 (fun a ch => ieq a ch = true) (py "boek")
              (slice (source_path (metadata d)) (m_start mb)
                 (m_start mb + 4))
         /\ slice (source_path (metadata d)) (m_start mb + 4) (m_end mb) = N
         /\ metadata doc !! "book"%string = Some (VStr N)
         /\ metadata doc !! "article"%string
            = Some (VStr (N ++ py ":" ++ num))
       | None =>
         metadata doc !! "book"%string = metadata d !! "book"%string
         /\ metadata doc !! "article"%string = Some (VStr num)
       end.
Proof.
  intros Hne Hin.
  apply list_elem_of_lookup in Hin as [i Hi].
  apply split_lookup_Some in Hi as (m & Hm & ->); [|done].
  exists (group (page_content d) m 2).
  match goal with |- context [article_doc ?t ?me ?b ?ix ?j (?s, ?e, ?n)] =>
    destruct (article_doc_meta t me b ix j s e n) as (Hnum & Hbook & Hnone)
  end.
  split; [exact Hnum|].
  destruct (search re_boek (source_path (metadata d))) as [mb|] eqn:Eb.
  - apply search_inv in Eb as [Hst Hs].
    apply boek_span in Hs as (Hg & Hlt & Hboek & Hdig & Hlen).
    assert (HN : group (source_path (metadata d)) mb 1
                 = slice (source_path (metadata d)) (m_start mb + 4)
                     (m_end mb)).
    { unfold group. by rewrite Hg, lookup_insert_eq. }
    assert (Hne' : group (source_path (metadata d)) mb 1 <> []).
    { rewrite HN. intros E. rewrite E in Hlen. simpl in Hlen. lia. }
    assert (Ht : truthy (Some (group (source_path (metadata d)) mb 1))
                 = true).
    { simpl. by destruct (group (source_path (metadata d)) mb 1). }
    destruct (Hbook Ht) as [Hb Ha]. simpl in Hb, Ha.
    cbv zeta. rewrite HN in *. repeat split; done.
  - destruct (Hnone eq_refl) as [Hb Ha]. split; done.
Qed.

(** C10: when the heading pattern matches, every sub-document has a text
    that is not empty: its slice begins at the start of its heading
    match, the heading has a character that is not blank, and the
    stripped heading line is the beginning of the sub-document's text. *)
Theorem split_texts_nonempty (d doc : Document) (i : nat) :
  finditer re_artikel (page_content d) <> [] ->
  _split_law_document d !! i = Some doc ->
  page_content doc <> []
  /\ exists m,
       finditer re_artikel (page_content d) !! i = Some m
       /\ strip (slice (page_content d) (m_start m) (m_end m)) <> []
       /\ strip (slice (page_content d) (m_start m) (m_end m))
            `prefix_of` page_content doc.
Proof.
  intros Hne Hi.
  apply split_lookup_Some in Hi as (m & Hm & ->); [|done].
  destruct (heading_slice _ _ _ _ eq_refl Hm)
    as (Hlt & Hn & Hbol & Hink & Happ).
  rewrite article_doc_text, Happ.
  assert (Hhead : strip (slice (page_content d) (m_start m) (m_end m)) <> [])
    by by apply has_ink_nonempty, strip_has_ink.
  assert (Hpre := strip_prefix_app _
    (slice (page_content d) (m_end m)
       (next_start (page_content d)
          (finditer re_artikel (page_content d)) i)) Hink).
  split.
  - intros E. rewrite E in Hpre. by apply prefix_nil_inv in Hpre.
  - exists m. split; [done|]. split; done.
Qed.
End SegmenterClaims.

(** * Splitter selection *)

Section SplitterClaims.
Context {U : UnicodeDB}.
Variable constructs : Splitter -> bool.

Lemma strategy_names_differ :
  py "recursive" <> py "tokens" /\ py "recursive" <> py "sentences"
  /\ py "recursive" <> py "markdown" /\ py "tokens" <> py "sentences"
  /\ py "tokens" <> py "markdown" /\ py "sentences" <> py "markdown".
Proof. repeat split; intros E; vm_compute in E; discriminate. Qed.

End SplitterClaims.

(** * Binary64 arithmetic *)

Section FloatFacts.
Local Open Scope Z_scope.

Lemma digits2_size p : digits2_pos p = Pos.size p.
Proof. induction p; simpl; congruence. Qed.

Lemma size_bounds p : 2 ^ (Zpos (Pos.size p) - 1) <= Zpos p < 2 ^ Zpos (Pos.size p).
Proof.
  split.
  - assert (H := Pos.size_le p).
    assert (2 ^ Zpos (Pos.size p) <= Zpos p~0).
    { rewrite <- Pos2Z.inj_pow. apply Pos2Z.pos_le_pos. exact H. }
    replace (Zpos (Pos.size p)) with (Z.succ (Zpos (Pos.size p) - 1)) in H0 by lia.
    rewrite Z.pow_succ_r in H0 by lia. lia.
  - assert (H := Pos.size_gt p). rewrite <- Pos2Z.inj_pow. apply Pos2Z.pos_lt_pos. exact H.
Qed.

Lemma size_unique p d : 2 ^ (d - 1) <= Zpos p < 2 ^ d -> Zpos (Pos.size p) = d.
Proof.
  intros [H1 H2]. destruct (size_bounds p) as [H3 H4].
  assert (0 < d). { destruct (Z.le_gt_cases d 0) as [Hd|Hd]; [|lia].
    assert (2 ^ d <= 2 ^ 0) by (apply Z.pow_le_mono_r; lia). simpl in H. lia. }
  destruct (Z.lt_trichotomy (Zpos (Pos.size p)) d) as [Hlt|[Heq|Hgt]]; [|exact Heq|].
  - assert (2 ^ Zpos (Pos.size p) <= 2 ^ (d - 1)) by (apply Z.pow_le_mono_r; lia). lia.
  - assert (2 ^ d <= 2 ^ (Zpos (Pos.size p) - 1)) by (apply Z.pow_le_mono_r; lia). lia.
Qed.

Lemma iter_pos_iter {A} (f : A -> A) p x :
  SpecFloat.iter_pos f p x = Pos.iter f x p.
Proof.
  revert x. induction p as [p IH|p IH|]; intros x; simpl.
  - rewrite !IH. rewrite <- !Pos.iter_swap. reflexivity.
  - rewrite !IH. reflexivity.
  - reflexivity.
Qed.

Lemma shr_1_nonneg m r s : 0 <= m ->
  shr_1 (Build_shr_record m r s) = Build_shr_record (m / 2) (Z.odd m) (r || s).
Proof.
  intros Hm. destruct m as [|p|p]; [reflexivity| |lia].
  destruct p as [p|p|]; simpl shr_1.
  - f_equal. rewrite Pos2Z.inj_xI. rewrite Z.mul_comm, Z.div_add_l by lia. reflexivity.
  - f_equal. rewrite Pos2Z.inj_xO. rewrite Z.mul_comm, Z.div_mul by lia. reflexivity.
  - reflexivity.
Qed.

(** The [j]-fold shift keeps the quotient, and in its two flags how the
    remainder compares with half a unit. *)
Lemma shr_iter m j :
  0 <= m ->
  let rec := Nat.iter j shr_1 (Build_shr_record m false false) in
  exists rem,
    0 <= shr_m rec /\ m = shr_m rec * 2 ^ Z.of_nat j + rem /\ 0 <= rem < 2 ^ Z.of_nat j
    /\ (shr_r rec || shr_s rec = true <-> rem <> 0)
    /\ ((1 <= j)%nat ->
        (shr_r rec = true <-> 2 ^ (Z.of_nat j - 1) <= rem)
        /\ (shr_s rec = true <-> rem <> 0 /\ rem <> 2 ^ (Z.of_nat j - 1))).
Proof.
  intros Hm. induction j as [|j IH].
  - simpl. exists 0. repeat split; try lia; try discriminate.
  - cbv zeta in *. rewrite Nat.iter_succ.
    destruct IH as (rem & H0 & Hdec & Hrem & Hrs & Hj).
    destruct (Nat.iter j shr_1 (Build_shr_record m false false)) as [mj r s].
    cbn [shr_m shr_r shr_s] in *. rewrite shr_1_nonneg by exact H0.
    cbn [shr_m shr_r shr_s].
    replace (Z.of_nat (S j) - 1) with (Z.of_nat j) by lia.
    assert (Hp : 2 ^ Z.of_nat (S j) = 2 * 2 ^ Z.of_nat j).
    { rewrite Nat2Z.inj_succ, Z.pow_succ_r by lia. reflexivity. }
    rewrite Hp.
    assert (Hpos : 0 < 2 ^ Z.of_nat j) by (apply Z.pow_pos_nonneg; lia).
    assert (Hodd : mj = 2 * (mj / 2) + (if Z.odd mj then 1 else 0)).
    { rewrite (Z.div_mod mj 2) at 1 by lia. rewrite Zmod_odd. reflexivity. }
    exists ((if Z.odd mj then 1 else 0) * 2 ^ Z.of_nat j + rem).
    assert (0 <= mj / 2) by (apply Z.div_pos; lia).
    destruct (Z.odd mj); repeat split; try lia; try nia.
    all: cbn [orb]; intros;
      repeat match goal with H : _ /\ _ |- _ => destruct H end;
      try match goal with H : (_ || _) = true |- _ => apply Hrs in H end;
      first [lia | apply Hrs; lia].
Qed.

Lemma shr_pos m e kp :
  0 <= m ->
  exists mk rb sb rem,
    shr (Build_shr_record m false false) e (Zpos kp)
    = (Build_shr_record mk rb sb, e + Zpos kp)
    /\ 0 <= mk /\ m = mk * 2 ^ Zpos kp + rem /\ 0 <= rem < 2 ^ Zpos kp
    /\ (rb || sb = true <-> rem <> 0)
    /\ (rb = true <-> 2 ^ (Zpos kp - 1) <= rem)
    /\ (sb = true <-> rem <> 0 /\ rem <> 2 ^ (Zpos kp - 1)).
Proof.
  intros Hm. unfold shr. rewrite iter_pos_iter, Pos2Nat.inj_iter.
  generalize (shr_iter m (Pos.to_nat kp) Hm). cbv zeta. unfold Nat.iter.
  match goal with |- context [nat_rect ?a ?b ?c ?d] =>
    destruct (nat_rect a b c d) as [mk rb sb] end.
  intros (rem & H0 & Hdec & Hrem & Hrs & Hj).
  cbn [shr_m shr_r shr_s] in *.
  rewrite positive_nat_Z in *.
  destruct Hj as [Hr Hs]; [lia|].
  exists mk, rb, sb, rem. repeat split; try tauto; try lia.
Qed.

(** Rounding to nearest even after the shift: at most half a unit away. *)
Lemma round_half m e kp mk rb sb :
  0 < m ->
  shr (Build_shr_record m false false) e (Zpos kp)
  = (Build_shr_record mk rb sb, e + Zpos kp) ->
  let v := round_nearest_even mk (loc_of_shr_record (Build_shr_record mk rb sb)) in
  mk <= v <= mk + 1
  /\ 2 * m - 2 ^ Zpos kp <= 2 * (v * 2 ^ Zpos kp) <= 2 * m + 2 ^ Zpos kp.
Proof.
  intros Hm Hshr.
  destruct (shr_pos m e kp) as (mk' & rb' & sb' & rem & Heq & H0 & Hdec & Hrem & Hrs & Hr & Hs);
    [lia|].
  rewrite Hshr in Heq. injection Heq as <- <- <-.
  assert (Hp : 2 ^ Zpos kp = 2 * 2 ^ (Zpos kp - 1)).
  { replace (Zpos kp) with (Z.succ (Zpos kp - 1)) at 1 by lia.
    rewrite Z.pow_succ_r by lia. reflexivity. }
  assert (Hpos : 0 < 2 ^ (Zpos kp - 1)) by (apply Z.pow_pos_nonneg; lia).
  cbv zeta. unfold loc_of_shr_record, round_nearest_even.
  destruct rb, sb.
  - assert (2 ^ (Zpos kp - 1) <= rem) by tauto.
    assert (rem <> 2 ^ (Zpos kp - 1)) by tauto. nia.
  - assert (2 ^ (Zpos kp - 1) <= rem) by tauto.
    assert (~ (rem <> 0 /\ rem <> 2 ^ (Zpos kp - 1))).
    { intros H'. apply Hs in H'. discriminate. }
    assert (rem = 2 ^ (Zpos kp - 1)) by lia.
    destruct (Z.even mk); nia.
  - assert (~ 2 ^ (Zpos kp - 1) <= rem).
    { intros H'. apply Hr in H'. discriminate. }
    nia.
  - assert (~ rem <> 0). { intros H'. apply Hrs in H'. discriminate. }
    nia.
Qed.

Lemma fexp_normal x : -1021 <= x -> fexp 53 1024 x = x - 53.
Proof. intros H. unfold fexp, emin. lia. Qed.

Lemma shr_fexp_53 vp e' :
  Zpos (Pos.size vp) = 53 -> -1074 <= e' ->
  shr_fexp 53 1024 (Zpos vp) e' loc_Exact
  = (Build_shr_record (Zpos vp) false false, e').
Proof.
  intros Hs He. unfold shr_fexp, Zdigits2. rewrite digits2_size, Hs.
  rewrite fexp_normal by lia.
  replace (53 + e' - 53 - e') with 0 by lia. reflexivity.
Qed.

Lemma shr_fexp_wide P e kp :
  Zpos (Pos.size P) = 53 + Zpos kp -> -1074 <= e + Zpos kp ->
  shr_fexp 53 1024 (Zpos P) e loc_Exact
  = shr (Build_shr_record (Zpos P) false false) e (Zpos kp).
Proof.
  intros Hs He. unfold shr_fexp, Zdigits2. rewrite digits2_size, Hs.
  rewrite fexp_normal by lia.
  replace (53 + Zpos kp + e - 53 - e) with (Zpos kp) by lia. reflexivity.
Qed.

Lemma round_aux_exact mz ez :
  Zpos (Pos.size mz) = 53 -> -1074 <= ez <= 971 ->
  binary_round_aux 53 1024 false (Zpos mz) ez loc_Exact
  = S754_finite false mz ez.
Proof.
  intros Hs He. unfold binary_round_aux.
  rewrite shr_fexp_53 by lia. cbn [shr_m loc_of_shr_record round_nearest_even].
  rewrite shr_fexp_53 by lia. cbn [shr_m].
  replace (ez <=? 1024 - 53) with true by (symmetry; apply Z.leb_le; lia).
  reflexivity.
Qed.

Lemma round_aux_wide P e kp :
  Zpos (Pos.size P) = 53 + Zpos kp ->
  -1074 <= e + Zpos kp -> e + Zpos kp + 1 <= 971 ->
  exists v m'' e'',
    binary_round_aux 53 1024 false (Zpos P) e loc_Exact
    = S754_finite false m'' e''
    /\ 2 * Zpos P - 2 ^ Zpos kp <= 2 * (v * 2 ^ Zpos kp)
       <= 2 * Zpos P + 2 ^ Zpos kp
    /\ ((e'' = e + Zpos kp /\ Zpos m'' = v)
        \/ (e'' = e + Zpos kp + 1 /\ 2 * Zpos m'' = v)).
Proof.
  intros Hs He1 He2. unfold binary_round_aux.
  rewrite (shr_fexp_wide P e kp) by assumption.
  destruct (shr_pos (Zpos P) e kp) as (mk & rb & sb & rem & Heq & H0 & Hdec & Hrem & _);
    [lia|].
  rewrite Heq.
  destruct (round_half (Zpos P) e kp mk rb sb) as [Hv Hhalf]; [lia|exact Heq|].
  cbv zeta in Hv, Hhalf. cbn [shr_m].
  set (v := round_nearest_even mk
              (loc_of_shr_record (Build_shr_record mk rb sb))) in *.
  destruct (size_bounds P) as [Hlo Hhi]. rewrite Hs in Hlo, Hhi.
  replace (53 + Zpos kp - 1) with (52 + Zpos kp) in Hlo by lia.
  rewrite Z.pow_add_r in Hlo, Hhi by lia.
  assert (Hpos : 0 < 2 ^ Zpos kp) by (apply Z.pow_pos_nonneg; lia).
  assert (Hmk : 2 ^ 52 <= mk < 2 ^ 53) by nia.
  destruct (Z.eq_dec v (2 ^ 53)) as [Hv53|Hv53].
  - exists v, (2 ^ 52)%positive, (e + Zpos kp + 1).
    split; [|split; [exact Hhalf|right; split; [reflexivity|rewrite Hv53; reflexivity]]].
    rewrite Hv53.
    assert (Hsh : shr_fexp 53 1024 (2 ^ 53) (e + Zpos kp) loc_Exact
                  = (Build_shr_record (2 ^ 52) false false, e + Zpos kp + 1)).
    { unfold shr_fexp. change (Zdigits2 (2 ^ 53)) with 54.
      rewrite fexp_normal by lia.
      replace (54 + (e + Zpos kp) - 53 - (e + Zpos kp)) with 1 by lia.
      reflexivity. }
    rewrite Hsh. cbn [shr_m]. change (2 ^ 52) with (Zpos (2 ^ 52)).
    cbv iota beta.
    replace (e + Zpos kp + 1 <=? 1024 - 53) with true
      by (symmetry; apply Z.leb_le; lia).
    reflexivity.
  - assert (Hvr : 2 ^ 52 <= v < 2 ^ 53) by lia.
    destruct v as [|vp|vp]; [lia| |lia].
    exists (Zpos vp), vp, (e + Zpos kp).
    split; [|split; [exact Hhalf|left; split; reflexivity]].
    rewrite shr_fexp_53; [| apply size_unique; lia | lia].
    cbn [shr_m].
    replace (e + Zpos kp <=? 1024 - 53) with true
      by (symmetry; apply Z.leb_le; lia).
    reflexivity.
Qed.

Lemma iter_xO p k : Zpos (Pos.iter xO p k) = Zpos p * 2 ^ Zpos k.
Proof.
  rewrite Pos2Nat.inj_iter, <- (positive_nat_Z k).
  induction (Pos.to_nat k) as [|n IH].
  - simpl. lia.
  - rewrite Nat2Z.inj_succ, Z.pow_succ_r by lia.
    cbn [Nat.iter nat_rect]. cbn [Nat.iter nat_rect] in IH.
    rewrite Pos2Z.inj_xO, IH. lia.
Qed.

(** [float(m)] for an integer below [2^53]: exact. *)
Lemma float_of_int_exact m :
  0 < m < 2 ^ 53 ->
  exists mz d,
    float_of_int m = S754_finite false mz (d - 53)
    /\ Zpos (Pos.size mz) = 53 /\ 1 <= d <= 53
    /\ 2 ^ (d - 1) <= m < 2 ^ d
    /\ Zpos mz = m * 2 ^ (53 - d).
Proof.
  intros Hm. destruct m as [|p|p]; [lia| |lia].
  unfold float_of_int, binary_normalize, binary_round.
  rewrite digits2_size.
  destruct (size_bounds p) as [Hlo Hhi].
  set (d := Zpos (Pos.size p)) in *.
  assert (Hd : 1 <= d <= 53).
  { split; [unfold d; lia|].
    destruct (Z.le_gt_cases d 53) as [H|H]; [exact H|].
    assert (2 ^ 53 <= 2 ^ (d - 1)) by (apply Z.pow_le_mono_r; lia). lia. }
  rewrite Z.add_0_r, fexp_normal by lia.
  unfold shl_align.
  destruct (d - 53 - 0) as [|k|k] eqn:Ek; [| lia |].
  - assert (d = 53) by lia.
    exists p, d. rewrite round_aux_exact by (fold d; lia).
    replace (d - 53) with 0 by lia.
    repeat split; try lia. replace (53 - d) with 0 by lia. simpl. lia.
  - exists (Pos.iter xO p k), d.
    assert (Hz : Zpos (Pos.iter xO p k) = Zpos p * 2 ^ (53 - d)).
    { rewrite iter_xO. f_equal. f_equal. lia. }
    assert (Hsz : Zpos (Pos.size (Pos.iter xO p k)) = 53).
    { apply size_unique. rewrite Hz. change (53 - 1) with 52.
      assert (H52 : 2 ^ 52 = 2 ^ (d - 1) * 2 ^ (53 - d)).
      { rewrite <- Z.pow_add_r by lia. f_equal. lia. }
      assert (H53 : 2 ^ 53 = 2 ^ d * 2 ^ (53 - d)).
      { rewrite <- Z.pow_add_r by lia. f_equal. lia. }
      assert (0 < 2 ^ (53 - d)) by (apply Z.pow_pos_nonneg; lia).
      rewrite H52, H53. nia. }
    rewrite round_aux_exact by lia.
    repeat split; try lia.
Qed.

Lemma float_095 : float_literal 95 100 = S754_finite false 8556839292003942 (-53).
Proof. vm_compute. reflexivity. Qed.

(** The arithmetic of the rounded product: [W = v * K] is within half a
    unit [K] of [P = M * X], and [T = K * Sb] is one. *)
Lemma p95_arith (m q A K Sb v : Z) :
  0 < m < 2 ^ 48 -> 20 * q <= 19 * m < 20 * q + 20 ->
  0 < A -> 0 < K -> 0 < Sb -> K * Sb = 2 ^ 53 * A ->
  2 ^ 52 * K <= 8556839292003942 * (m * A) < 2 ^ 53 * K ->
  2 * (8556839292003942 * (m * A)) - K <= 2 * (v * K)
    <= 2 * (8556839292003942 * (m * A)) + K ->
  q * Sb <= v < (q + 1) * Sb.
Proof.
  intros Hm Hq HA HK HSb HT HP Hv.
  set (X := m * A) in *. set (Y := q * A).
  assert (HX : 0 < X < 2 ^ 48 * A) by (unfold X; nia).
  assert (HY1 : 20 * Y <= 19 * X) by (unfold X, Y; nia).
  assert (HY2 : 19 * X <= 20 * Y + 19 * A) by (unfold X, Y; nia).
  assert (HY3 : 19 * X = 20 * Y \/ 20 * Y + A <= 19 * X).
  { destruct (Z.eq_dec (19 * m) (20 * q)) as [E|E].
    - left. unfold X, Y. nia.
    - right. unfold X, Y. nia. }
  assert (HqT : q * Sb * K = 2 ^ 53 * Y) by (unfold Y; nia).
  change (2 ^ 48) with 281474976710656 in *.
  change (2 ^ 52) with 4503599627370496 in *.
  change (2 ^ 53) with 9007199254740992 in *.
  split.
  - assert (Hlt : (q * Sb - 1) * K < v * K); [|nia].
    replace ((q * Sb - 1) * K) with (q * Sb * K - K) by ring.
    rewrite HqT. destruct HY3; lia.
  - assert (Hlt : v * K < (q + 1) * Sb * K); [|nia].
    replace ((q + 1) * Sb * K) with (q * Sb * K + K * Sb) by ring.
    rewrite HqT, HT. lia.
Qed.

Lemma p95_index_exact (n : nat) :
  (1 <= n)%nat -> Z.of_nat n - 1 < 2 ^ 48 ->
  p95_index n = 19 * (Z.of_nat n - 1) / 20.
Proof.
  intros Hn Hb. unfold p95_index. set (m := Z.of_nat n - 1) in *.
  destruct (Z.eq_dec m 0) as [->|Hm0]; [vm_compute; reflexivity|].
  assert (Hm : 0 < m < 2 ^ 48) by lia.
  destruct (float_of_int_exact m) as (mz & d & Hf & Hsz & Hd & Hmd & Hmz).
  { split; [lia|]. assert (2 ^ 48 < 2 ^ 53) by (vm_compute; reflexivity). lia. }
  rewrite float_095, Hf. cbn [SFmul xorb].
  assert (Hd48 : d <= 48).
  { destruct (Z.le_gt_cases d 48) as [H|H]; [exact H|].
    assert (2 ^ 48 <= 2 ^ (d - 1)) by (apply Z.pow_le_mono_r; lia). lia. }
  set (A := 2 ^ (53 - d)) in *.
  assert (HA : 0 < A) by (apply Z.pow_pos_nonneg; lia).
  destruct (size_bounds mz) as [Hzlo Hzhi]. rewrite Hsz in Hzlo, Hzhi.
  change (53 - 1) with 52 in Hzlo.
  set (P := (8556839292003942 * mz)%positive).
  assert (HP : Zpos P = 8556839292003942 * (m * A)).
  { unfold P. rewrite Pos2Z.inj_mul, Hmz. reflexivity. }
  destruct (size_bounds P) as [HPlo HPhi].
  assert (HD : 105 <= Zpos (Pos.size P) <= 106).
  { assert (HPr : 2 ^ 104 <= Zpos P < 2 ^ 106).
    { rewrite HP, <- Hmz.
      change (2 ^ 104) with (2 ^ 52 * 2 ^ 52).
      change (2 ^ 106) with (2 ^ 53 * 2 ^ 53).
      change (2 ^ 52) with 4503599627370496 in *.
      change (2 ^ 53) with 9007199254740992 in *. nia. }
    split.
    - destruct (Z.le_gt_cases 105 (Zpos (Pos.size P))) as [H|H]; [exact H|].
      assert (2 ^ Zpos (Pos.size P) <= 2 ^ 104) by (apply Z.pow_le_mono_r; lia).
      lia.
    - destruct (Z.le_gt_cases (Zpos (Pos.size P)) 106) as [H|H]; [exact H|].
      assert (2 ^ 106 <= 2 ^ (Zpos (Pos.size P) - 1))
        by (apply Z.pow_le_mono_r; lia).
      lia. }
  destruct (Zpos (Pos.size P) - 53) as [|kp|kp] eqn:Ek; [lia| |lia].
  assert (Hsize : Zpos (Pos.size P) = 53 + Zpos kp) by lia.
  assert (Hkp : 52 <= Zpos kp <= 53) by lia.
  destruct (round_aux_wide P (-53 + (d - 53)) kp Hsize)
    as (v & m'' & e'' & Hres & Hhalf & Hcase); [lia|lia|].
  rewrite Hres.
  set (K := 2 ^ Zpos kp) in *.
  set (Sb := 2 ^ (106 - d - Zpos kp)).
  assert (HK : 0 < K) by (apply Z.pow_pos_nonneg; lia).
  assert (HSb : 0 < Sb) by (apply Z.pow_pos_nonneg; lia).
  assert (HT : K * Sb = 2 ^ 53 * A).
  { unfold K, Sb, A. rewrite <- !Z.pow_add_r by lia. f_equal. lia. }
  assert (HPK : 2 ^ 52 * K <= 8556839292003942 * (m * A) < 2 ^ 53 * K).
  { rewrite <- HP. rewrite Hsize in HPlo, HPhi.
    replace (53 + Zpos kp - 1) with (52 + Zpos kp) in HPlo by lia.
    rewrite Z.pow_add_r in HPlo, HPhi by lia. exact (conj HPlo HPhi). }
  assert (Hq : 20 * (19 * m / 20) <= 19 * m < 20 * (19 * m / 20) + 20).
  { assert (H := Z.div_mod (19 * m) 20).
    assert (H' := Z.mod_pos_bound (19 * m) 20). lia. }
  rewrite HP in Hhalf.
  destruct (p95_arith m (19 * m / 20) A K Sb v Hm Hq HA HK HSb HT HPK Hhalf)
    as [Hlo Hhi].
  destruct Hcase as [[-> Hv]|[-> Hv]].
  - unfold int_of_float.
    destruct (-53 + (d - 53) + Zpos kp) as [|ep|ep] eqn:Ee; [lia|lia|].
    assert (HS : 2 ^ Zpos ep = Sb).
    { unfold Sb. f_equal. lia. }
    rewrite HS, Hv. symmetry.
    apply (Z.div_unique v Sb (19 * m / 20) (v - Sb * (19 * m / 20))); lia.
  - unfold int_of_float.
    destruct (-53 + (d - 53) + Zpos kp + 1) as [|ep|ep] eqn:Ee; [lia|lia|].
    assert (HS : 2 * 2 ^ Zpos ep = Sb).
    { unfold Sb. replace (106 - d - Zpos kp) with (Z.succ (Zpos ep)) by lia.
      rewrite Z.pow_succ_r by lia. reflexivity. }
    rewrite <- (Z.div_mul_cancel_l (Zpos m'') (2 ^ Zpos ep) 2) by lia.
    rewrite HS, Hv. symmetry.
    apply (Z.div_unique v Sb (19 * m / 20) (v - Sb * (19 * m / 20))); lia.
Qed.
End FloatFacts.

(** * Chunk statistics *)

Section StatsClaims.
Context {U : UnicodeDB}.
Variable split_documents : list Document -> list Document.

(** C5: for a chunk set that is not empty (and of at most [2^48] chunks),
    [p95] is the element of the sorted chunk lengths at the zero-based
    index [floor(0.95 * (n - 1))]: the binary64 product that the code
    truncates gives exactly [floor(19 * (n - 1) / 20)]; for the chunk
    lengths [10, 20, 30, 40, 50] it is 40. *)
Theorem chunk_stats_p95_nearest_rank (docs : list Document) :
  let sizes :=
    map (fun c => Z.of_nat (length (page_content c)))
        (chunk split_documents docs) in
  (sizes <> [] -> (Z.of_nat (length sizes) <= 2 ^ 48)%Z ->
   exists sorted,
     Sorted Z.le sorted /\ sorted ≡ₚ sizes
     /\ sorted !! Z.to_nat (19 * (Z.of_nat (length sizes) - 1) / 20)
        = Some (st_p95 (chunk_stats split_documents docs)))
  /\ st_p95 (stats_of_sizes [10; 20; 30; 40; 50]%Z) = 40%Z.
Proof.
  intros sizes. split; [|vm_compute; reflexivity].
  intros Hne Hlen. exists (merge_sort Z.le sizes).
  assert (Hperm : merge_sort Z.le sizes ≡ₚ sizes)
    by apply merge_sort_Permutation.
  assert (Hl : length (merge_sort Z.le sizes) = length sizes)
    by by rewrite Hperm.
  split; [apply (Sorted_merge_sort Z.le)|]. split; [done|].
  unfold chunk_stats. fold sizes. unfold stats_of_sizes.
  destruct sizes as [|x sizes'] eqn:E; [done|]. rewrite <- E in *.
  assert (Hpos : (1 <= length sizes)%nat) by (rewrite E; simpl; lia).
  cbn [st_p95]. rewrite Hl, p95_index_exact by lia.
  assert (Hi : (Z.to_nat (19 * (Z.of_nat (length sizes) - 1) / 20)
                < length (merge_sort Z.le sizes))%nat).
  { rewrite Hl.
    assert ((19 * (Z.of_nat (length sizes) - 1) / 20
             <= Z.of_nat (length sizes) - 1)%Z).
    { apply Z.div_le_upper_bound; lia. }
    assert ((0 <= 19 * (Z.of_nat (length sizes) - 1) / 20)%Z)
      by (apply Z.div_pos; lia).
    lia. }
  apply lookup_lt_is_Some in Hi as [y Hy]. by rewrite Hy.
Qed.
End StatsClaims.

(** * More on the retrieval router *)

Section MergeInvariants.
Implicit Types (seen : gset (option value * option value * str))
  (merged : list Document).

(** What [_add] keeps, for every [k]: the merged hits have pairwise
    different keys, all of them seen; [merged] only grows at its end, by
    hits of [seq]. *)
Lemma _add_invariant (k : Z) seq seen merged :
  NoDup (map dedup_key merged) ->
  (forall d, d ∈ merged -> dedup_key d ∈ seen) ->
  NoDup (map dedup_key (snd (_add k seq seen merged)))
  /\ (forall d, d ∈ snd (_add k seq seen merged) ->
                dedup_key d ∈ fst (_add k seq seen merged))
  /\ merged `prefix_of` snd (_add k seq seen merged)
  /\ (forall d, d ∈ snd (_add k seq seen merged) -> d ∈ merged \/ d ∈ seq).
Proof.
  revert seen merged.
  induction seq as [|d rest IH]; intros seen merged Hnd Hseen; simpl.
  - repeat split; try done. intros d Hd. by left.
  - destruct (decide (dedup_key d ∈ seen)) as [Hin|Hin].
    + destruct (IH seen merged Hnd Hseen) as (H1 & H2 & H3 & H4).
      repeat split; try done.
      intros d' Hd'. destruct (H4 d' Hd') as [?|?]; [by left|right; by right].
    + assert (Hnd' : NoDup (map dedup_key (merged ++ [d]))).
      { rewrite map_app. apply NoDup_app. repeat split; [done| |].
        - intros key Hk1 Hk2. simpl in Hk2.
          apply list_elem_of_singleton in Hk2 as ->.
          apply list_elem_of_fmap in Hk1 as (d' & Hkey & Hd').
          apply Hin. rewrite Hkey. by apply Hseen.
        - simpl. apply NoDup_singleton. }
      assert (Hseen' : forall d', d' ∈ merged ++ [d] ->
                                  dedup_key d' ∈ {[dedup_key d]} ∪ seen).
      { intros d' Hd'. apply elem_of_app in Hd' as [Hd'|Hd'].
        - apply elem_of_union_r. by apply Hseen.
        - apply list_elem_of_singleton in Hd' as ->.
          apply elem_of_union_l. by apply elem_of_singleton. }
      destruct (k <=? Z.of_nat (length (merged ++ [d])))%Z; simpl.
      * repeat split; try done.
        -- by apply prefix_app_r.
        -- intros d' Hd'. apply elem_of_app in Hd' as [Hd'|Hd']; [by left|].
           apply list_elem_of_singleton in Hd' as ->. right. left.
      * destruct (IH _ _ Hnd' Hseen') as (H1 & H2 & H3 & H4).
        repeat split; try done.
        -- etrans; [|exact H3]. by apply prefix_app_r.
        -- intros d' Hd'. destruct (H4 d' Hd') as [Hd''|Hd''].
           ++ apply elem_of_app in Hd'' as [?|Hd'']; [by left|].
              apply list_elem_of_singleton in Hd'' as ->. right. left.
           ++ right. by right.
Qed.

End MergeInvariants.

Section RouterMore.
Context {U : UnicodeDB}.
Variable index : Query -> list Document.

(** The statute branch of [ask], with its two searches named. *)
Lemma ask_statute_unfold (cfg : AppConfig) (q : str) log :
  _is_law_query q = true ->
  ask index cfg q log
  = (let '(seen, merged) :=
       _add (k cfg) (index (narrow_query (k cfg) q)) ∅ [] in
     if (Z.of_nat (length merged) <? k cfg)%Z
     then snd (_add (k cfg) (index (broad_query (k cfg) q)) seen merged)
     else merged,
     log ++ [narrow_query (k cfg) q; broad_query (k cfg) q]).
Proof.
  intros Hlaw. unfold ask, narrow_query, broad_query. cbv zeta.
  rewrite Hlaw.
  unfold bind, similarity_search, ret. cbv zeta.
  assert (Hw : (if truthy (_extract_article q)
                then {["article"%string := VStr (default [] (_extract_article q))]}
                else {["category"%string := VStr (py "laws")]})
               = match _extract_article q with
                 | Some a => {["article"%string := VStr a]}
                 | None => ({["category"%string := VStr (py "laws")]}
                            : gmap string value)
                 end).
  { destruct (_extract_article q) as [a|] eqn:E; [|done].
    by rewrite (extract_article_truthy _ _ E). }
  rewrite Hw. rewrite <- app_assoc. simpl.
  by destruct (_add _ _ _ _).
Qed.

Lemma ask_plain_unfold (cfg : AppConfig) (q : str) log :
  _is_law_query q = false ->
  ask index cfg q log
  = (index (broad_query (k cfg) q), log ++ [broad_query (k cfg) q]).
Proof. intros Hlaw. unfold ask. cbv zeta. by rewrite Hlaw. Qed.

(** X1: every hit that [ask] returns is a hit the index returned for one
    of the searches [ask] issued, whatever the question and the result
    count. *)
Theorem ask_hits_from_issued_searches (cfg : AppConfig) (q : str)
    (d : Document) :
  d ∈ fst (ask index cfg q []) ->
  exists qu, qu ∈ snd (ask index cfg q []) /\ d ∈ index qu.
Proof.
  destruct (_is_law_query q) eqn:Hlaw.
  - rewrite ask_statute_unfold by done. cbn [fst snd app].
    destruct (_add_invariant (k cfg) (index (narrow_query (k cfg) q)) ∅ [])
      as (Hnd & Hseen & _ & Hfrom).
    { constructor. }
    { intros d' Hd'. by apply elem_of_nil in Hd'. }
    destruct (_add (k cfg) (index (narrow_query (k cfg) q)) ∅ [])
      as [seen merged]. cbn [fst snd] in *.
    assert (Hm : forall d', d' ∈ merged ->
              exists qu, qu ∈ [narrow_query (k cfg) q; broad_query (k cfg) q]
                         /\ d' ∈ index qu).
    { intros d' Hd'. destruct (Hfrom d' Hd') as [Hd''|Hd''].
      - by apply elem_of_nil in Hd''.
      - eexists. split; [left|done]. }
    destruct (Z.of_nat (length merged) <? k cfg)%Z; [|by apply Hm].
    destruct (_add_invariant (k cfg) (index (broad_query (k cfg) q))
                seen merged Hnd Hseen) as (_ & _ & _ & Hfrom').
    intros Hd. destruct (Hfrom' d Hd) as [Hd'|Hd']; [by apply Hm|].
    eexists. split; [right; left|done].
  - rewrite ask_plain_unfold by done. cbn [fst snd app].
    intros Hd. eexists. split; [left|done].
Qed.

(** X2: for a statute question the returned hits have pairwise different
    keys [(source, page, first 64 characters)], for every result count. *)
Theorem ask_statute_hits_distinct_keys (cfg : AppConfig) (q : str) :
  _is_law_query q = true ->
  NoDup (map dedup_key (fst (ask index cfg q []))).
Proof.
  intros Hlaw. rewrite ask_statute_unfold by done. cbn [fst].
  destruct (_add_invariant (k cfg) (index (narrow_query (k cfg) q)) ∅ [])
    as (Hnd & Hseen & _ & _).
  { constructor. }
  { intros d' Hd'. by apply elem_of_nil in Hd'. }
  destruct (_add (k cfg) (index (narrow_query (k cfg) q)) ∅ [])
    as [seen merged]. cbn [fst snd] in *.
  destruct (Z.of_nat (length merged) <? k cfg)%Z; [|done].
  by destruct (_add_invariant (k cfg) (index (broad_query (k cfg) q))
                 seen merged Hnd Hseen) as (? & _).
Qed.


Lemma fresh_length seen l : (length (fresh seen l) <= length l)%nat.
Proof.
  revert seen. induction l as [|d l IH]; intros seen; simpl; [lia|].
  destruct (decide (dedup_key d ∈ seen)); simpl.
  - specialize (IH seen). lia.
  - specialize (IH ({[dedup_key d]} ∪ seen)). lia.
Qed.

Lemma fresh_keys seen l d :
  d ∈ l -> dedup_key d ∈ seen \/ dedup_key d ∈ keys_of (fresh seen l).
Proof.
  revert seen. induction l as [|a l IH]; intros seen Hd;
    [by apply elem_of_nil in Hd|]. simpl.
  destruct (decide (dedup_key a ∈ seen)) as [Hin|Hin].
  - apply elem_of_cons in Hd as [->|Hd]; [by left|by apply IH].
  - unfold keys_of. simpl. apply elem_of_cons in Hd as [->|Hd].
    + right. apply elem_of_union_l. by apply elem_of_singleton.
    + destruct (IH ({[dedup_key a]} ∪ seen) Hd) as [H|H].
      * apply elem_of_union in H as [H|H]; [|by left].
        right. by apply elem_of_union_l.
      * right. by apply elem_of_union_r.
Qed.

(** X4: with a result count of at least 2, and a narrow search that
    returns no more hits than it was asked for, no narrow hit is lost:
    the narrow hits, first of each key, are the beginning of the result,
    so each narrow hit has its key in the result. *)
Theorem ask_keeps_every_narrow_hit (cfg : AppConfig) (q : str) :
  _is_law_query q = true -> (2 <= k cfg)%Z ->
  (Z.of_nat (length (index (narrow_query (k cfg) q)))
   <= q_k (narrow_query (k cfg) q))%Z ->
  fresh ∅ (index (narrow_query (k cfg) q))
    `prefix_of` fst (ask index cfg q [])
  /\ forall d, d ∈ index (narrow_query (k cfg) q) ->
               dedup_key d ∈ keys_of (fst (ask index cfg q [])).
Proof.
  intros Hlaw Hk Hlen.
  assert (Hpre : fresh ∅ (index (narrow_query (k cfg) q))
                   `prefix_of` fst (ask index cfg q [])).
  { rewrite ask_statute_unfold by done. cbn [fst].
    set (law := index (narrow_query (k cfg) q)) in *.
    assert (Hlk : (q_k (narrow_query (k cfg) q) <= k cfg)%Z).
    { simpl. assert (k cfg / 2 <= k cfg)%Z by (apply Z.div_le_upper_bound; lia).
      lia. }
    pose proof (fresh_length ∅ law) as Hfl.
    destruct (_add_spec (k cfg) law ∅ []) as [H1 _]; [simpl; lia|].
    destruct (_add_invariant (k cfg) law ∅ []) as (Hnd & Hseen & _ & _).
    { constructor. }
    { intros d' Hd'. by apply elem_of_nil in Hd'. }
    destruct (_add (k cfg) law ∅ []) as [seen merged]. cbn [fst snd] in *.
    rewrite Nat.sub_0_r, take_ge in H1 by lia. simpl in H1. subst merged.
    destruct (Z.of_nat (length (fresh ∅ law)) <? k cfg)%Z; [|done].
    by destruct (_add_invariant (k cfg) (index (broad_query (k cfg) q))
                   seen (fresh ∅ law) Hnd Hseen) as (_ & _ & ? & _). }
  split; [exact Hpre|].
  intros d Hd.
  destruct (fresh_keys ∅ _ _ Hd) as [H|H]; [by apply elem_of_empty in H|].
  destruct Hpre as [rest ->]. unfold keys_of in *.
  rewrite map_app, list_to_set_app. by apply elem_of_union_l.
Qed.
End RouterMore.

(** * More on the classifier and the segmenter *)

Section ShapeFacts.
Context {U : UnicodeDB}.

(** The text under [\d{1,h}] or [\d+] followed by [[a-z]?]. *)
Lemma digits_letter_spans (p : N -> bool) ql hi a b e c1 c2 c3 :
  Span ql (Rep is_digit 1 hi) a c1 b c2 ->
  Span ql (Rep p 0 (Some 1%nat)) b c2 e c3 ->
  c3 = c1 /\ (a < b <= e)%nat
  /\ slice ql a e = slice ql a b ++ slice ql b e
  /\ length (slice ql a b) = (b - a)%nat
  /\ (forall h, hi = Some h -> (b - a <= h)%nat)
  /\ Forall (fun ch => is_digit ch = true) (slice ql a b)
  /\ (slice ql b e = [] \/ exists ch, slice ql b e = [ch] /\ p ch = true).
Proof.
  intros H2 H3.
  apply Span_Rep_inv in H2 as (-> & Hd1 & Hd2 & Hd3 & Hd4 & Hd5).
  apply Span_Rep_inv in H3 as (-> & Ha1 & Ha2 & Ha3 & Ha4 & Ha5).
  specialize (Ha3 _ eq_refl).
  repeat split; try done; try lia.
  - rewrite slice_app; [done|lia].
  - destruct (slice ql b e) as [|ch [|ch' l]] eqn:E; [by left| |].
    + right. exists ch. split; [done|]. by inversion Ha5.
    + simpl in Ha4. lia.
Qed.

(** A match of the keyword pattern captures one to three digits and at
    most one lowercase letter. *)
Lemma article_word_group ql m :
  search re_article_word ql = Some m ->
  article_id_shape (py "7:" ++ group ql m 1).
Proof.
  intros H. apply search_inv in H as [Hi Hs].
  destruct m as [i j g]. simpl in *.
  unfold re_article_word in Hs. cbn [seqs foldr] in Hs. span_split.
  match goal with
  | H2 : Span _ (Rep is_digit _ _) _ _ _ _,
    H3 : Span _ (Rep az _ _) _ _ _ _ |- _ =>
    destruct (digits_letter_spans _ _ _ _ _ _ _ _ _ H2 H3)
      as (-> & Hab & Happ & Hlen & Hhi & Hds & Hl)
  end.
  specialize (Hhi _ eq_refl).
  unfold group. simpl. rewrite lookup_insert_eq, Happ.
  eexists _, _. split; [reflexivity|]. split; [lia|]. split; done.
Qed.

Lemma article_id_shape_no_upper a :
  article_id_shape a -> Forall (fun ch => ascii_upper_letter ch = false) a.
Proof.
  intros (ds & l & -> & _ & Hds & Hl).
  apply Forall_app. split; [by repeat constructor|].
  apply Forall_app. split.
  - eapply Forall_impl; [exact Hds|]. simpl. intros ch.
    unfold is_digit, ascii_upper_letter, in_range. intros Hd.
    apply andb_false_iff. destruct (ch <? 128) eqn:E.
    + apply andb_true_iff in Hd as [_ Hd]. apply N.leb_le in Hd.
      left. apply N.leb_gt. lia.
    + apply N.ltb_ge in E. right. apply N.leb_gt. lia.
  - destruct Hl as [->|(ch & -> & Hch)]; [constructor|].
    repeat constructor. revert Hch.
    unfold az, ascii_lower_letter, ascii_upper_letter, in_range.
    intros Hd. apply andb_true_iff in Hd as [Hd _]. apply N.leb_le in Hd.
    apply andb_false_iff. right. apply N.leb_gt. lia.
Qed.
End ShapeFacts.

Section ShapeClaims.
Context {U : UnicodeDB}.

(** X5: every article id that [_extract_article] returns, by the
    citation pattern or by the keyword pattern, is [7:], one to three
    digits and at most one lowercase letter; it has no uppercase ASCII
    letter. *)
Theorem extract_article_shape (q a : str) :
  _extract_article q = Some a ->
  article_id_shape a /\ Forall (fun ch => ascii_upper_letter ch = false) a.
Proof.
  intros H.
  assert (Hs : article_id_shape a).
  { revert H. unfold _extract_article. cbv zeta.
    destruct (search re_article_id (lower q)) as [m|] eqn:E1.
    - intros [= <-]. by apply article_id_group in E1 as [? _].
    - destruct (search re_article_word (lower q)) as [m2|] eqn:E2;
        [|discriminate].
      intros [= <-]. by apply article_word_group. }
  split; [done|by apply article_id_shape_no_upper].
Qed.

Lemma split_elem d doc :
  doc ∈ _split_law_document d ->
  doc = d
  \/ exists i m,
       finditer re_artikel (page_content d) !! i = Some m
       /\ doc = article_doc (page_content d) (metadata d)
                  (match search re_boek (source_path (metadata d)) with
                   | Some m => Some (group (source_path (metadata d)) m 1)
                   | None => None
                   end)
                  (map (fun m => (m_start m, m_end m,
                                  group (page_content d) m 2))
                     (finditer re_artikel (page_content d)))
                  i (m_start m, m_end m, group (page_content d) m 2).
Proof.
  intros Hin.
  destruct (finditer re_artikel (page_content d)) as [|m0 ms] eqn:E.
  - left. unfold _split_law_document in Hin. cbv zeta in Hin.
    rewrite E in Hin. simpl in Hin. by apply list_elem_of_singleton in Hin.
  - right. apply list_elem_of_lookup in Hin as [i Hi].
    apply split_lookup_Some in Hi as (m & Hm & ->); [|by rewrite E].
    rewrite E in Hm. rewrite E. by exists i, m.
Qed.

(** X6: the segmenter writes the entries [article_num], [article] and
    [book] only: every other metadata entry of a sub-document is the
    entry of the law document, present or absent alike; so the category
    and the source path are inherited. *)
Theorem split_keeps_other_metadata (d doc : Document) (key : string) :
  doc ∈ _split_law_document d ->
  key <> "article_num"%string -> key <> "article"%string ->
  key <> "book"%string ->
  metadata doc !! key = metadata d !! key.
Proof.
  intros Hin H1 H2 H3.
  destruct (split_elem _ _ Hin) as [->|(i & m & _ & ->)]; [done|].
  unfold article_doc. cbv zeta. simpl.
  destruct (truthy _); simpl; by rewrite !lookup_insert_ne.
Qed.

Lemma artikel_number text s e g :
  Span text re_artikel s ∅ e g ->
  number_shape az_i (group text (mkMatch s e g) 2).
Proof.
  intros Hs. unfold re_artikel in Hs. cbn [seqs foldr] in Hs. span_split.
  match goal with
  | H2 : Span _ (Rep is_digit _ _) _ _ _ _,
    H3 : Span _ (Rep az_i _ _) _ _ _ _ |- _ =>
    destruct (digits_letter_spans _ _ _ _ _ _ _ _ _ H2 H3)
      as (-> & Hab & Happ & Hlen & _ & Hds & Hl)
  end.
  match goal with
  | H4 : Span _ (Rep dot _ _) _ _ _ _ |- _ =>
    apply Span_Rep_inv in H4 as (-> & _)
  end.
  unfold group. simpl.
  rewrite lookup_insert_ne by done. rewrite lookup_insert_eq, Happ.
  eexists _, _. split; [reflexivity|]. split; [|split; done].
  intros E. rewrite E in Hlen. simpl in Hlen. lia.
Qed.

(** X7: the article number of a sub-document is a run of digits, at
    least one, followed by at most one letter, which the segmenter keeps
    as the heading has it, uppercase or lowercase. *)
Theorem split_article_num_shape (d doc : Document) :
  finditer re_artikel (page_content d) <> [] ->
  doc ∈ _split_law_document d ->
  exists num,
    metadata doc !! "article_num"%string = Some (VStr num)
    /\ number_shape az_i num.
Proof.
  intros Hne Hin.
  apply list_elem_of_lookup in Hin as [i Hi].
  apply split_lookup_Some in Hi as (m & Hm & ->); [|done].
  exists (group (page_content d) m 2). split; [apply article_doc_meta|].
  destruct (chained_lookup _ _ _ _ _ _
              (finditer_chained re_artikel (page_content d)) Hm)
    as (_ & _ & Hs & _).
  destruct m as [s e g]. by apply artikel_number.
Qed.

(** X8: a sub-document whose article number has an uppercase ASCII
    letter (the heading pattern ignores case, and the number is kept as
    written) has an [article] entry that no question's extracted article
    id equals: extracted ids are taken from the lowercased question. *)
Theorem uppercase_article_never_extracted (d doc : Document)
    (a num : str) (ch : N) :
  finditer re_artikel (page_content d) <> [] ->
  doc ∈ _split_law_document d ->
  metadata doc !! "article"%string = Some (VStr a) ->
  metadata doc !! "article_num"%string = Some (VStr num) ->
  ch ∈ num -> ascii_upper_letter ch = true ->
  forall q, _extract_article q <> Some a.
Proof.
  intros Hne Hin Ha Hnum Hch Hup q Hq.
  apply extract_article_truthy in Hq as Ht.
  assert (Hno : Forall (fun ch => ascii_upper_letter ch = false) a).
  { revert Hq. unfold _extract_article. cbv zeta.
    destruct (search re_article_id (lower q)) as [m|] eqn:E1.
    - intros [= <-]. apply article_id_group in E1 as [? _].
      by apply article_id_shape_no_upper.
    - destruct (search re_article_word (lower q)) as [m2|] eqn:E2;
        [|discriminate].
      intros [= <-]. by apply article_id_shape_no_upper, article_word_group. }
  assert (Hin' : ch ∈ a).
  { apply list_elem_of_lookup in Hin as [i Hi].
    apply split_lookup_Some in Hi as (m & Hm & ->); [|done].
    match type of Ha with
    | context [article_doc ?t ?me ?b ?ix ?j (?s, ?e, ?n)] =>
      destruct (article_doc_meta t me b ix j s e n) as (Hn & Hbook & Hnone)
    end.
    rewrite Hn in Hnum. injection Hnum as <-.
    destruct (truthy (match search re_boek (source_path (metadata d)) with
                      | Some m0 => Some (group (source_path (metadata d)) m0 1)
                      | None => None
                      end)) eqn:Eb.
    - destruct (Hbook eq_refl) as [_ Hart]. rewrite Hart in Ha.
      injection Ha as <-. apply elem_of_app. right.
      by apply list_elem_of_further.
    - destruct (Hnone eq_refl) as [_ Hart]. rewrite Hart in Ha.
      by injection Ha as <-. }
  rewrite Forall_forall in Hno. specialize (Hno _ Hin'). congruence.
Qed.

Lemma raw_slices_cons text m ms :
  raw_slices text (m :: ms)
  = slice text (m_start m) (next_start text (m :: ms) 0)
    :: raw_slices text ms.
Proof.
  unfold raw_slices. simpl. reflexivity.
Qed.

Lemma slice_drop s i j :
  (i <= j)%nat -> slice s i j ++ drop j s = drop i s.
Proof.
  intros H. unfold slice.
  rewrite <- (take_drop (j - i) (drop i s)) at 2. f_equal.
  rewrite drop_drop. by replace (i + (j - i))%nat with j by lia.
Qed.

Lemma raw_slices_concat r text pos m ms :
  chained r text pos (m :: ms) ->
  concat (raw_slices text (m :: ms)) = drop (m_start m) text.
Proof.
  revert pos m. induction ms as [|m' ms IH]; intros pos m Hc.
  - unfold raw_slices, next_start. simpl. rewrite app_nil_r.
    unfold slice. apply take_ge. rewrite length_drop. lia.
  - rewrite raw_slices_cons.
    change (concat (?x :: ?l)) with (x ++ concat l).
    destruct Hc as (_ & _ & Hs & Hc).
    rewrite (IH _ _ Hc). unfold next_start. simpl.
    apply slice_drop.
    apply Span_bounds in Hs as [Hs _]. destruct Hc as (Hle & _). lia.
Qed.

(** X9: when the heading pattern matches, the texts of the sub-documents
    are the stripped slices of the headings, and these slices, before
    stripping, follow one another without gap or overlap from the start of
    the first heading match to the end of the text. The text before the
    first heading is in no slice. *)
Theorem split_slices_tile_from_first_heading (d : Document)
    (m0 : Match) (ms : list Match) :
  finditer re_artikel (page_content d) = m0 :: ms ->
  map page_content (_split_law_document d)
  = map strip (raw_slices (page_content d) (m0 :: ms))
  /\ concat (raw_slices (page_content d) (m0 :: ms))
     = drop (m_start m0) (page_content d).
Proof.
  intros E. split.
  - rewrite (split_unfold _ _ _ E). unfold raw_slices.
    apply list_eq. intros i.
    rewrite !list_lookup_fmap, !list_lookup_imap, list_lookup_fmap.
    destruct ((m0 :: ms) !! i) as [m|] eqn:Em; [|done].
    cbn [fmap option_fmap option_map]. f_equal.
    apply article_doc_text.
  - eapply raw_slices_concat. rewrite <- E. apply finditer_chained.
Qed.
End ShapeClaims.

(** * More on chunking and its statistics *)

Section ChunkFacts.
Context {U : UnicodeDB}.
Variable split_documents : list Document -> list Document.

Lemma chunk_fold docs law_docs other_docs :
  foldl (fun '(law_docs, other_docs) d =>
           if decide (metadata d !! "category"%string
                      = Some (VStr (py "laws")))
           then (law_docs ++ _split_law_document d, other_docs)
           else (law_docs, other_docs ++ [d]))
        (law_docs, other_docs) docs
  = (law_docs ++ (filter is_law docs ≫= _split_law_document),
     other_docs ++ filter (fun d => ~ is_law d) docs).
Proof.
  revert law_docs other_docs.
  induction docs as [|d docs IH]; intros law_docs other_docs.
  - simpl. by rewrite !app_nil_r.
  - cbn [foldl]. rewrite !filter_cons. unfold is_law at 1 3.
    destruct (decide (metadata d !! "category"%string
                      = Some (VStr (py "laws")))) as [Hl|Hl].
    + rewrite IH. rewrite decide_False by (intros Hn; by apply Hn).
      rewrite bind_cons. by rewrite app_assoc.
    + rewrite IH. rewrite decide_True by done.
      by rewrite <- app_assoc.
Qed.

(** X10: [chunk] hands the splitter the sub-documents of the law
    documents (category exactly ["laws"]) in one call and the other
    documents in a second call, each in input order and only when there
    is something to split: the chunks of the law documents come first in
    the result, wherever the law documents stood in the input. *)
Theorem chunk_splits_laws_first (docs : list Document) :
  chunk split_documents docs
  = split_nonempty split_documents
      (filter is_law docs ≫= _split_law_document)
    ++ split_nonempty split_documents (filter (fun d => ~ is_law d) docs).
Proof.
  unfold chunk. rewrite chunk_fold. simpl. reflexivity.
Qed.

Lemma max_Z_spec (l : list Z) :
  l <> [] -> max_Z l ∈ l /\ forall y, y ∈ l -> (y <= max_Z l)%Z.
Proof.
  destruct l as [|x t]; [done|]. intros _. simpl.
  induction t as [|a t [IH1 IH2]]; simpl.
  - split; [left|]. intros y Hy. apply list_elem_of_singleton in Hy. lia.
  - split.
    + destruct (Z.max_spec a (foldr Z.max x t)) as [[_ ->]|[_ ->]].
      * apply elem_of_cons in IH1 as [->|IH1]; [left|].
        do 2 right. done.
      * right. left.
    + intros y Hy. apply elem_of_cons in Hy as [->|Hy].
      * specialize (IH2 x ltac:(left)). lia.
      * apply elem_of_cons in Hy as [->|Hy]; [lia|].
        specialize (IH2 y ltac:(by right)). lia.
Qed.

Lemma elem_of_merge_sort (l : list Z) (y : Z) :
  y ∈ merge_sort Z.le l <-> y ∈ l.
Proof. by rewrite (merge_sort_Permutation Z.le l). Qed.

Lemma sorted_lookup_le (l : list Z) (i j : nat) (x y : Z) :
  Sorted Z.le l -> l !! i = Some x -> l !! j = Some y -> (i < j)%nat ->
  (x <= y)%Z.
Proof.
  intros Hs. apply Sorted_StronglySorted in Hs; [|intros ? ? ?; lia].
  revert i j. induction Hs as [|a l Hs IH Hall]; intros i j; [done|].
  destruct i as [|i], j as [|j]; simpl; try lia.
  - intros [= <-] Hy _. rewrite Forall_forall in Hall.
    apply Hall. by eapply list_elem_of_lookup_2.
  - intros Hx Hy Hlt. apply (IH i j); [done|done|lia].
Qed.

Lemma p95_lookup (sizes : list Z) :
  sizes <> [] -> (Z.of_nat (length sizes) <= 2 ^ 48)%Z ->
  merge_sort Z.le sizes
    !! Z.to_nat (19 * (Z.of_nat (length sizes) - 1) / 20)
  = Some (st_p95 (stats_of_sizes sizes)).
Proof.
  intros Hne Hlen.
  assert (Hl : length (merge_sort Z.le sizes) = length sizes)
    by by rewrite merge_sort_Permutation.
  unfold stats_of_sizes.
  destruct sizes as [|x sizes'] eqn:E; [done|]. rewrite <- E in *.
  assert (Hpos : (1 <= length sizes)%nat) by (rewrite E; simpl; lia).
  cbn [st_p95]. rewrite Hl, p95_index_exact by lia.
  assert (Hi : (Z.to_nat (19 * (Z.of_nat (length sizes) - 1) / 20)
                < length (merge_sort Z.le sizes))%nat).
  { rewrite Hl.
    assert ((19 * (Z.of_nat (length sizes) - 1) / 20
             <= Z.of_nat (length sizes) - 1)%Z).
    { apply Z.div_le_upper_bound; lia. }
    assert ((0 <= 19 * (Z.of_nat (length sizes) - 1) / 20)%Z)
      by (apply Z.div_pos; lia).
    lia. }
  apply lookup_lt_is_Some in Hi as [y Hy]. by rewrite Hy.
Qed.

(** X11: the statistics are consistent: [chunks] is the number of
    chunks; without chunks all four figures are 0; otherwise [max] is the
    length of a chunk and bounds every chunk length, and (for at most
    [2^48] chunks) [p95] is the length of a chunk too and is at most
    [max]. *)
Theorem chunk_stats_consistent (docs : list Document) :
  let sizes :=
    map (fun c => Z.of_nat (length (page_content c)))
        (chunk split_documents docs) in
  let s := chunk_stats split_documents docs in
  st_chunks s = Z.of_nat (length (chunk split_documents docs))
  /\ (chunk split_documents docs = [] -> s = mkStats 0 0 0 0)
  /\ (chunk split_documents docs <> [] ->
      st_max s ∈ sizes /\ (forall y, y ∈ sizes -> (y <= st_max s)%Z)
      /\ ((Z.of_nat (length sizes) <= 2 ^ 48)%Z ->
          st_p95 s ∈ sizes /\ (st_p95 s <= st_max s)%Z)).
Proof.
  intros sizes s. subst s. unfold chunk_stats. fold sizes.
  assert (Hlen : length sizes = length (chunk split_documents docs))
    by apply length_map.
  split; [|split].
  - unfold stats_of_sizes. rewrite <- Hlen. by destruct sizes.
  - intros E. subst sizes. by rewrite E.
  - intros Hne.
    assert (Hne' : sizes <> []).
    { intros E. rewrite E in Hlen. simpl in Hlen.
      by destruct (chunk split_documents docs). }
    destruct (max_Z_spec sizes Hne') as [Hm1 Hm2].
    assert (Hmax : st_max (stats_of_sizes sizes) = max_Z sizes).
    { unfold stats_of_sizes. by destruct sizes. }
    rewrite Hmax. split; [done|]. split; [done|].
    intros Hb. pose proof (p95_lookup sizes Hne' Hb) as Hp.
    assert (Hin : st_p95 (stats_of_sizes sizes) ∈ sizes).
    { apply elem_of_merge_sort. by eapply list_elem_of_lookup_2. }
    split; [done|by apply Hm2].
Qed.

(** X12: for 2 to 21 chunks [p95] is the second largest chunk length:
    the element before the last of the sorted lengths, the last being
    [max]. For a single chunk it is that chunk's length. *)
Theorem chunk_stats_p95_second_largest (docs : list Document) :
  let sizes :=
    map (fun c => Z.of_nat (length (page_content c)))
        (chunk split_documents docs) in
  let s := chunk_stats split_documents docs in
  (2 <= length sizes <= 21)%nat ->
  exists sorted,
    Sorted Z.le sorted /\ sorted ≡ₚ sizes
    /\ sorted !! (length sizes - 2)%nat = Some (st_p95 s)
    /\ sorted !! (length sizes - 1)%nat = Some (st_max s).
Proof.
  intros sizes s Hn. subst s. unfold chunk_stats. fold sizes.
  assert (Hne : sizes <> []) by (intros E; rewrite E in Hn; simpl in Hn; lia).
  exists (merge_sort Z.le sizes).
  assert (Hperm : merge_sort Z.le sizes ≡ₚ sizes)
    by apply merge_sort_Permutation.
  assert (Hl : length (merge_sort Z.le sizes) = length sizes)
    by by rewrite Hperm.
  assert (Hsorted : Sorted Z.le (merge_sort Z.le sizes))
    by apply (Sorted_merge_sort Z.le).
  split; [done|]. split; [done|]. split.
  - rewrite <- p95_lookup by (try done; lia). f_equal.
    assert (H19 : (19 * (Z.of_nat (length sizes) - 1) / 20
                   = Z.of_nat (length sizes) - 2)%Z).
    { symmetry.
      apply (Z.div_unique _ _ _ (21 - Z.of_nat (length sizes))%Z); lia. }
    rewrite H19. lia.
  - assert (Hmax : st_max (stats_of_sizes sizes) = max_Z sizes).
    { unfold stats_of_sizes. by destruct sizes. }
    rewrite Hmax.
    destruct (max_Z_spec sizes Hne) as [Hm1 Hm2].
    assert (Hi : (length sizes - 1 < length (merge_sort Z.le sizes))%nat)
      by lia.
    apply lookup_lt_is_Some in Hi as [y Hy]. rewrite Hy. f_equal.
    assert (Hy_in : y ∈ sizes).
    { apply elem_of_merge_sort. by eapply list_elem_of_lookup_2. }
    assert (Hle : (y <= max_Z sizes)%Z) by by apply Hm2.
    apply elem_of_merge_sort in Hm1.
    apply list_elem_of_lookup in Hm1 as [j Hj].
    assert (Hjl : (j < length (merge_sort Z.le sizes))%nat)
      by by eapply lookup_lt_Some.
    destruct (decide (j = length sizes - 1)%nat) as [->|Hneq].
    { rewrite Hy in Hj. by injection Hj. }
    assert (Hge : (max_Z sizes <= y)%Z).
    { eapply sorted_lookup_le; [exact Hsorted|exact Hj|exact Hy|lia]. }
    lia.
Qed.
End ChunkFacts.

(** * The retrieval evaluation *)

Section EvalFacts.
Context {U : UnicodeDB}.
Variable index : Query -> list Document.

Lemma starts_with_inv w s :
  starts_with w s = true -> exists post, s = w ++ post.
Proof.
  revert s. induction w as [|a w IH]; intros s; simpl.
  - intros _. by exists s.
  - destruct s as [|b s]; [done|].
    intros H. apply andb_true_iff in H as [Hab Hw].
    apply N.eqb_eq in Hab as ->.
    destruct (IH _ Hw) as [post ->]. by exists post.
Qed.

(** [w in s] holds exactly when [s] is [pre ++ w ++ post]. *)
Lemma str_in_inv w s :
  str_in w s = true -> exists pre post, s = pre ++ w ++ post.
Proof.
  induction s as [|b s IH]; rewrite str_in_unfold.
  - rewrite orb_false_r. intros H.
    destruct (starts_with_inv _ _ H) as [post ->]. by exists [], post.
  - intros H. apply orb_true_iff in H as [H|H].
    + destruct (starts_with_inv _ _ H) as [post ->]. by exists [], post.
    + destruct (IH H) as (pre & post & ->). by exists (b :: pre), post.
Qed.

(** [str.lower] works character by character on ASCII text, whatever
    surrounds it. *)
Lemma lower_ascii_part pre w post :
  Forall (fun c => c < 128) w ->
  exists x y, lower (pre ++ w ++ post) = x ++ lower w ++ y.
Proof.
  intros Hw. unfold lower.
  rewrite !imap_app, !concat_app.
  eexists _, _. f_equal. f_equal.
  f_equal. apply imap_ext. intros i c Hc. simpl.
  rewrite Forall_forall in Hw.
  assert (Hlt : c < 128) by (apply Hw; by eapply list_elem_of_lookup_2).
  unfold lower_at. apply N.ltb_lt in Hlt. by rewrite Hlt.
Qed.

Lemma str_in_lower w s :
  Forall (fun c => c < 128) w ->
  str_in w s = true -> str_in (lower w) (lower s) = true.
Proof.
  intros Hw H. apply str_in_inv in H as (pre & post & ->).
  destruct (lower_ascii_part pre w post Hw) as (x & y & ->).
  apply str_in_app.
Qed.

(** X13: a pattern of ASCII characters that occurs as written in the
    text or in the source path of a hit is found, whatever the other
    patterns of the item are; the empty pattern is found in every hit,
    and an item without patterns matches no hit. *)
Theorem match_finds_ascii_substring (doc : Document) (p : str)
    (patterns : list str) :
  (p ∈ patterns -> Forall (fun c => c < 128) p ->
   str_in p (page_content doc) = true
   \/ str_in p (source_path (metadata doc)) = true ->
   _match doc patterns = true)
  /\ ([] ∈ patterns -> _match doc patterns = true)
  /\ _match doc [] = false.
Proof.
  assert (Hgen : forall p, p ∈ patterns -> Forall (fun c => c < 128) p ->
            str_in p (page_content doc) = true
            \/ str_in p (source_path (metadata doc)) = true ->
            _match doc patterns = true).
  { intros p' Hin Hp Hocc. unfold _match. cbv zeta.
    apply existsb_exists. exists p'. split; [by apply list_elem_of_In|].
    apply orb_true_iff.
    destruct Hocc as [H|H]; [right|left]; by apply str_in_lower. }
  split; [by apply Hgen|]. split; [|done].
  intros Hin. apply (Hgen [] Hin); [constructor|]. left. by destruct (page_content doc).
Qed.

Lemma rank_loop_spec i docs must :
  match rank_loop i docs must with
  | Some r =>
    (i <= r)%nat
    /\ (exists d, docs !! (r - i)%nat = Some d /\ _match d must = true)
    /\ forall j d, (j < r - i)%nat -> docs !! j = Some d ->
                   _match d must = false
  | None => forall d, d ∈ docs -> _match d must = false
  end.
Proof.
  revert i. induction docs as [|d docs IH]; intros i; simpl.
  - intros d Hd. by apply elem_of_nil in Hd.
  - destruct (_match d must) eqn:E.
    + rewrite Nat.sub_diag. split; [lia|]. split; [by exists d|].
      intros j d' Hj. lia.
    + specialize (IH (S i)).
      destruct (rank_loop (S i) docs must) as [r|].
      * destruct IH as (Hle & (d' & Hd' & Hm) & Hbefore).
        split; [lia|]. split.
        -- exists d'. split; [|done].
           replace (r - i)%nat with (S (r - S i)) by lia. done.
        -- intros j d'' Hj. destruct j as [|j]; simpl.
           ++ by intros [= <-].
           ++ apply Hbefore. lia.
      * intros d' Hd'. apply elem_of_cons in Hd' as [->|Hd']; [done|].
        by apply IH.
Qed.

Lemma eval_items_spec k_used items log :
  eval_items index k_used items log
  = (map (fun it => fst (eval_item index k_used it [])) items,
     log ++ map (fun it => mkQuery (it_q it) (or_int (it_k it) k_used) None)
              items).
Proof.
  revert log. induction items as [|it items IH]; intros log; simpl.
  - unfold ret. by rewrite app_nil_r.
  - unfold bind at 1. unfold eval_item at 1.
    unfold bind at 1. unfold similarity_search at 1. unfold ret at 1.
    unfold bind at 1. rewrite IH. unfold ret.
    rewrite <- app_assoc. simpl. reflexivity.
Qed.

(** X14: the evaluation issues one search per item, in item order, each
    with the item's question, without filter, and with the item's [k]
    when that is set and not 0, else [top_k] when that is set and not 0,
    else the configured [k]; the statute router of [ask] is not used,
    whatever the question. There is one result row per item. *)
Theorem eval_issues_one_plain_search_per_item (cfg : AppConfig)
    (items : list EvalItem) (top_k : option Z) (log : list Query) :
  snd (run_retrieval_eval index cfg items top_k log)
  = log ++ map (fun it =>
                  mkQuery (it_q it)
                    (or_int (it_k it) (or_int top_k (k cfg))) None) items
  /\ map row_q (snd (fst (run_retrieval_eval index cfg items top_k log)))
     = map it_q items
  /\ Forall (fun qu => q_where qu = None)
       (snd (run_retrieval_eval index cfg items top_k [])).
Proof.
  unfold run_retrieval_eval. cbv zeta. unfold bind, ret.
  rewrite !eval_items_spec. cbn [fst snd].
  split; [done|]. split.
  - rewrite map_map. apply map_ext. intros it. done.
  - simpl. apply Forall_forall. intros qu Hqu.
    apply list_elem_of_fmap in Hqu as (it & -> & _). done.
Qed.

(** X15: the rank of a row is the position of the first hit of its
    search that matches the item's patterns, and there is none exactly
    when no hit matches; a row counts for [hit@1] when the top hit
    matches. The counts satisfy [hit1 <= hitk <= total], and [total] is
    the number of items. *)
Theorem eval_rank_is_first_match (cfg : AppConfig)
    (items : list EvalItem) (top_k : option Z) :
  let out := fst (run_retrieval_eval index cfg items top_k []) in
  (ev_hit1 (fst out) <= ev_hitk (fst out) <= ev_total (fst out))%nat
  /\ ev_total (fst out) = length items
  /\ forall i it row,
       items !! i = Some it -> snd out !! i = Some row ->
       let docs :=
         index (mkQuery (it_q it)
                  (or_int (it_k it) (or_int top_k (k cfg))) None) in
       match row_rank row with
       | Some r =>
         row_hit row = true
         /\ (exists d, docs !! r = Some d /\ _match d (it_must it) = true)
         /\ forall j d, (j < r)%nat -> docs !! j = Some d ->
                        _match d (it_must it) = false
       | None =>
         row_hit row = false
         /\ forall d, d ∈ docs -> _match d (it_must it) = false
       end.
Proof.
  intros out. subst out.
  unfold run_retrieval_eval. cbv zeta. unfold bind, ret.
  rewrite eval_items_spec. cbn [fst snd ev_hit1 ev_hitk ev_total].
  set (rows := map _ items).
  split; [|split].
  - split; [|apply length_filter].
    assert (Hsub : forall l : list EvalRow,
              (length (filter (fun r => row_rank r = Some 0%nat) l)
               <= length (filter (fun r => row_hit r = true) l))%nat
              \/ ~ Forall (fun r => row_hit r = bool_decide (is_Some (row_rank r))) l).
    { induction l as [|r l IH]; [left; simpl; lia|].
      destruct (decide (row_hit r = bool_decide (is_Some (row_rank r))))
        as [Hr|Hr]; [|right; intros H; by inversion H].
      destruct IH as [IH|IH]; [|right; intros H; by inversion H].
      left. rewrite !filter_cons.
      destruct (decide (row_rank r = Some 0%nat)) as [E|E].
      - rewrite decide_True; [simpl; lia|].
        rewrite Hr, E. by apply bool_decide_eq_true_2.
      - destruct (decide (row_hit r = true)); simpl; lia. }
    destruct (Hsub rows) as [H|H]; [done|].
    exfalso. apply H. subst rows. apply Forall_forall. intros r Hr.
    apply list_elem_of_fmap in Hr as (it & -> & _). done.
  - subst rows. by rewrite length_map.
  - intros i it row Hit Hrow. subst rows.
    rewrite list_lookup_fmap, Hit in Hrow. injection Hrow as <-.
    unfold eval_item, bind, similarity_search, ret. cbn.
    set (docs := index _).
    pose proof (rank_loop_spec 0 docs (it_must it)) as Hspec.
    destruct (rank_loop 0 docs (it_must it)) as [r|].
    + destruct Hspec as (_ & Hd & Hbefore).
      rewrite Nat.sub_0_r in Hd, Hbefore.
      split; [by apply bool_decide_eq_true_2|]. split; done.
    + split; [|done]. apply bool_decide_eq_false_2. by intros [? ?].
Qed.
End EvalFacts.

(** * Chunking overrides *)

Section OverrideFacts.
Context {U : UnicodeDB}.
Variable constructs : Splitter -> bool.

(** The splitter construction by the lowercased strategy name. *)
Lemma build_splitter_by_name (cfg : AppConfig) :
  _build_splitter constructs cfg
  = match optional_splitter cfg (strategy_name cfg) with
    | Some sp => if constructs sp then sp else recursive_splitter cfg
    | None => recursive_splitter cfg
    end.
Proof.
  destruct strategy_names_differ as (H1 & H2 & H3 & H4 & H5 & H6).
  unfold _build_splitter, optional_splitter.
  fold (strategy_name cfg). generalize (strategy_name cfg). intros name.
  unfold try_strategy.
  destruct (decide (name = py "tokens")) as [->|Ht].
  - destruct (constructs _); [done|]. by rewrite !decide_False.
  - destruct (decide (name = py "sentences")) as [->|Hs].
    + destruct (constructs _); [done|]. by rewrite !decide_False.
    + destruct (decide (name = py "markdown")) as [->|Hm]; [|done].
      by destruct (constructs _).
Qed.

Lemma strategy_choices_lower (s : str) :
  s ∈ strategy_choices -> s <> [] /\ lower s = s.
Proof.
  unfold strategy_choices. intros H.
  repeat (apply elem_of_cons in H as [->|H]; [split; [done|vm_compute; reflexivity]|]).
  by apply elem_of_nil in H.
Qed.

Lemma cli_overrides_given (cfg : AppConfig) (s : str) (size overlap : Z) :
  s <> [] -> size <> 0%Z -> overlap <> 0%Z ->
  cli_overrides (Some s) (Some size) (Some overlap) cfg
  = if decide (s = py "tokens")
    then mkAppConfig (chunk_size cfg) (chunk_overlap cfg) s size overlap
           (embedding_model_name cfg) (k cfg)
    else mkAppConfig size overlap s (token_chunk_size cfg)
           (token_overlap cfg) (embedding_model_name cfg) (k cfg).
Proof.
  intros Hs Hsize Hover. unfold cli_overrides, truthy_int.
  assert (Ht : truthy (Some s) = true) by by destruct s.
  rewrite Ht.
  rewrite (proj2 (Z.eqb_neq _ _) Hsize), (proj2 (Z.eqb_neq _ _) Hover).
  cbn [negb default id set_chunk_strategy chunk_strategy].
  destruct (decide (s = py "tokens")) as [E|E].
  - cbn [set_token_chunk_size chunk_strategy].
    rewrite decide_True by done. reflexivity.
  - cbn [set_chunk_size chunk_strategy].
    rewrite decide_False by done. reflexivity.
Qed.

Lemma strategy_name_choice (cfg : AppConfig) (s : str) :
  s ∈ strategy_choices -> chunk_strategy cfg = s -> strategy_name cfg = s.
Proof.
  intros Hs E. destruct (strategy_choices_lower s Hs) as [Hne Hlow].
  unfold strategy_name. rewrite E. destruct s; [done|exact Hlow].
Qed.

Lemma optional_splitter_choice (cfg : AppConfig) (s : str) :
  s ∈ strategy_choices -> s <> py "tokens" ->
  match optional_splitter cfg s with
  | Some sp =>
    splitter_size sp = chunk_size cfg
    /\ splitter_overlap sp = chunk_overlap cfg
  | None => True
  end.
Proof.
  intros _ Hnt. unfold optional_splitter.
  rewrite decide_False by done.
  destruct (decide (s = py "sentences")); [done|].
  by destruct (decide (s = py "markdown")).
Qed.

(** X16: a strategy chosen on the command line together with a size and
    an overlap that are not 0 reaches the splitter whenever the splitters
    can be constructed: the splitter built from the overridden
    configuration has that size and that overlap. *)
Theorem cli_overrides_reach_splitter (cfg : AppConfig) (s : str)
    (size overlap : Z) :
  s ∈ strategy_choices -> size <> 0%Z -> overlap <> 0%Z ->
  (forall sp, constructs sp = true) ->
  let sp :=
    _build_splitter constructs
      (cli_overrides (Some s) (Some size) (Some overlap) cfg) in
  splitter_size sp = size /\ splitter_overlap sp = overlap.
Proof.
  intros Hs Hsize Hover Hc sp. subst sp.
  destruct (strategy_choices_lower s Hs) as [Hne Hlow].
  rewrite build_splitter_by_name, cli_overrides_given by done.
  destruct (decide (s = py "tokens")) as [->|Hnt].
  - rewrite (strategy_name_choice _ (py "tokens")) by done.
    unfold optional_splitter. rewrite decide_True by done.
    by rewrite Hc.
  - rewrite (strategy_name_choice _ s) by done.
    match goal with |- context [optional_splitter ?c s] =>
      pose proof (optional_splitter_choice c s Hs Hnt) as Ho;
      destruct (optional_splitter c s) as [sp|]
    end; [|done].
    by rewrite Hc.
Qed.


End OverrideFacts.

(** * Loading *)

Section LoadingFacts.
Context {U : UnicodeDB} {Path : Type} {PO : PathOps Path} {L : Loaders}.
Implicit Types (p : Path) (docs ds raw : list Document).

Lemma load_file_app docs p :
  load_file docs p
  = (fun x : list Document * bool => (docs ++ fst x, snd x))
      <$> load_file [] p.
Proof.
  unfold load_file.
  repeat match goal with
  | |- context [decide ?P] => destruct (decide P)
  | |- context [match ?x with _ => _ end] =>
    match x with
    | PyMuPDFLoader => destruct PyMuPDFLoader
    | chardet => destruct chardet
    | _ _ => destruct x eqn:?
    end
  end; simpl; rewrite ?app_nil_r; try done.
Qed.

Lemma load_step_app data_dir docs p :
  load_step data_dir docs p = (docs ++.) <$> load_step data_dir [] p.
Proof.
  unfold load_step. rewrite load_file_app.
  destruct (load_file [] p) as [[ds [|]]|]; simpl; [done| |done].
  rewrite length_app, take_app_length, drop_app_length.
  destruct ds as [|d ds].
  - simpl. rewrite Nat.add_0_r, Nat.ltb_irrefl. done.
  - replace (length docs <? length docs + length (d :: ds))%nat with true
      by (symmetry; apply Nat.ltb_lt; simpl; lia).
    done.
Qed.

Lemma load_paths_from_app data_dir docs paths :
  load_paths_from data_dir docs paths
  = (docs ++.) <$> load_paths data_dir paths.
Proof.
  unfold load_paths. revert docs.
  induction paths as [|p paths IH]; intros docs; simpl.
  - by rewrite app_nil_r.
  - rewrite load_step_app.
    destruct (load_step data_dir [] p) as [ds|]; simpl; [|done].
    rewrite IH, (IH ds).
    destruct (load_paths_from data_dir [] paths) as [ds'|]; simpl; [|done].
    by rewrite app_assoc.
Qed.

Lemma load_paths_from_concat data_dir docs (ps1 ps2 : list Path) :
  load_paths_from data_dir docs (ps1 ++ ps2)
  = load_paths_from data_dir docs ps1 ≫= fun d1 =>
      load_paths_from data_dir d1 ps2.
Proof.
  revert docs. induction ps1 as [|p ps1 IH]; intros docs; simpl; [done|].
  destruct (load_step data_dir docs p) as [ds|]; simpl; [|done].
  apply IH.
Qed.

Lemma load_paths_cons data_dir p (paths : list Path) :
  load_paths data_dir (p :: paths)
  = load_step data_dir [] p ≫= fun d1 =>
      (d1 ++.) <$> load_paths data_dir paths.
Proof.
  unfold load_paths at 1. simpl.
  destruct (load_step data_dir [] p) as [d1|]; simpl; [|done].
  apply load_paths_from_app.
Qed.

(** X19: loading a list of paths is loading its parts one after the
    other: the documents of the first part, as loaded and annotated,
    followed by those of the second part; an exception in either part
    fails the whole. Documents loaded earlier are not touched by the
    annotation of later files. *)
Theorem load_paths_app (data_dir : Path) (ps1 ps2 : list Path) :
  load_paths data_dir (ps1 ++ ps2)
  = load_paths data_dir ps1 ≫= fun d1 =>
      (d1 ++.) <$> load_paths data_dir ps2.
Proof.
  unfold load_paths at 1. rewrite load_paths_from_concat.
  fold (load_paths data_dir ps1).
  destruct (load_paths data_dir ps1) as [d1|]; simpl; [|done].
  apply load_paths_from_app.
Qed.

Lemma setdefault_lookup key v (md : gmap string value) :
  setdefault key v md !! key = Some (default v (md !! key)).
Proof.
  unfold setdefault. destruct (md !! key) eqn:E; simpl; [done|].
  by rewrite lookup_insert_eq.
Qed.

Lemma setdefault_lookup_ne key key' v (md : gmap string value) :
  key <> key' -> setdefault key v md !! key' = md !! key'.
Proof.
  intros H. unfold setdefault. destruct (md !! key); [done|].
  by rewrite lookup_insert_ne.
Qed.

Lemma annotate_category c s d :
  metadata (annotate c s d) !! "category"%string
  = Some (default (VStr c) (metadata d !! "category"%string)).
Proof.
  unfold annotate. simpl. rewrite setdefault_lookup_ne by done.
  apply setdefault_lookup.
Qed.

Lemma annotate_annotated c s d : annotated (annotate c s d).
Proof.
  split; [rewrite annotate_category; eauto|].
  unfold annotate. simpl. rewrite setdefault_lookup. eauto.
Qed.

(** What [load_file] appends when it leaves the loop body by
    [continue]: the documents of PyMuPDF for a PDF. *)
Lemma load_file_continue p ds :
  load_file [] p = Some (ds, true) ->
  lower (suffix p) = py ".pdf"
  /\ exists loader,
       PyMuPDFLoader = Some loader /\ loader (path_str p) = Loaded ds.
Proof.
  unfold load_file.
  destruct (decide (lower (suffix p) = py ".pdf")) as [Hp|Hp].
  - destruct PyMuPDFLoader as [loader|] eqn:El.
    + destruct (loader (path_str p)) as [raw| |] eqn:Er.
      * intros [= <-]. split; [done|]. by exists loader.
      * by destruct (PyPDFLoader (path_str p)).
      * by destruct (PyPDFLoader (path_str p)).
    + by destruct (PyPDFLoader (path_str p)).
  - destruct (decide (lower (suffix p) ∈ [py ".txt"; py ".md"]));
      [|discriminate].
    repeat match goal with
    | |- context [match ?x with _ => _ end] =>
      match x with
      | chardet => destruct chardet
      | _ _ => destruct x eqn:?
      end
    end; discriminate.
Qed.

Lemma load_step_elem data_dir p ds d :
  load_step data_dir [] p = Some ds -> d ∈ ds ->
  annotated d
  \/ (lower (suffix p) = py ".pdf"
      /\ exists loader raw,
           PyMuPDFLoader = Some loader
           /\ loader (path_str p) = Loaded raw /\ d ∈ raw).
Proof.
  unfold load_step.
  destruct (load_file [] p) as [[raw [|]]|] eqn:E; [| |done].
  - intros [= <-] Hd. right.
    apply load_file_continue in E as (Hp & loader & Hl & Hr).
    split; [done|]. by exists loader, raw.
  - simpl. rewrite drop_0.
    destruct (0 <? length raw)%nat eqn:El.
    + intros [= <-] Hd. left.
      apply list_elem_of_fmap in Hd as (d0 & -> & _).
      apply annotate_annotated.
    + apply Nat.ltb_ge in El. destruct raw; [|simpl in El; lia].
      intros [= <-] Hd. by apply elem_of_nil in Hd.
Qed.

Lemma load_paths_single data_dir p :
  load_paths data_dir [p] = load_step data_dir [] p.
Proof.
  unfold load_paths. simpl. by destruct (load_step data_dir [] p).
Qed.

(** X20: every document that [load_paths] returns carries a category
    and a relative source path, unless it comes from a PDF that PyMuPDF
    loaded: for such a file the loop goes on to the next path before
    the annotation. *)
Theorem load_paths_annotated_or_pymupdf (data_dir : Path)
    (paths : list Path) (ds : list Document) (d : Document) :
  load_paths data_dir paths = Some ds -> d ∈ ds ->
  annotated d
  \/ exists p loader raw,
       p ∈ paths /\ lower (suffix p) = py ".pdf"
       /\ PyMuPDFLoader = Some loader
       /\ loader (path_str p) = Loaded raw /\ d ∈ raw.
Proof.
  revert ds. induction paths as [|p paths IH]; intros ds.
  - intros [= <-] Hd. by apply elem_of_nil in Hd.
  - rewrite load_paths_cons.
    destruct (load_step data_dir [] p) as [d1|] eqn:E1; [|done]. simpl.
    destruct (load_paths data_dir paths) as [d2|] eqn:E2; [|done]. simpl.
    intros [= <-] Hd. apply elem_of_app in Hd as [Hd|Hd].
    + destruct (load_step_elem _ _ _ _ E1 Hd)
        as [?|(Hp & loader & raw & Hl & Hr & Hin)]; [by left|].
      right. exists p, loader, raw. repeat split; try done. left.
    + destruct (IH d2 eq_refl Hd)
        as [?|(p' & loader & raw & Hp' & Hs & Hl & Hr & Hin)]; [by left|].
      right. exists p', loader, raw. repeat split; try done. by right.
Qed.
End LoadingFacts.

Section LoadingRouting.
Context {U : UnicodeDB} {Path : Type} {PO : PathOps Path} {L : Loaders}.
Variable split_documents : list Document -> list Document.

Lemma chunk_no_law (docs : list Document) :
  Forall (fun d => ~ is_law d) docs ->
  chunk split_documents docs = split_nonempty split_documents docs.
Proof.
  intros Hall. unfold chunk. rewrite chunk_fold.
  assert (H1 : filter is_law docs = []).
  { induction Hall as [|d docs Hd _ IH]; [done|].
    rewrite filter_cons, decide_False by done. exact IH. }
  assert (H2 : filter (fun d => ~ is_law d) docs = docs).
  { clear H1. induction Hall as [|d docs Hd _ IH]; [done|].
    rewrite filter_cons, decide_True by done. by rewrite IH. }
  rewrite H1, H2. simpl. reflexivity.
Qed.

Lemma chunk_all_law (docs : list Document) :
  Forall is_law docs ->
  chunk split_documents docs
  = split_nonempty split_documents (docs ≫= _split_law_document).
Proof.
  intros Hall. unfold chunk. rewrite chunk_fold.
  assert (H1 : filter is_law docs = docs).
  { induction Hall as [|d docs Hd _ IH]; [done|].
    rewrite filter_cons, decide_True by done. by rewrite IH. }
  assert (H2 : filter (fun d => ~ is_law d) docs = []).
  { clear H1. induction Hall as [|d docs Hd _ IH]; [done|].
    rewrite filter_cons, decide_False by (intros Hn; exact (Hn Hd)).
    exact IH. }
  rewrite H1, H2. simpl. by rewrite app_nil_r.
Qed.

(** X21: a PDF that PyMuPDF loads is returned as PyMuPDF gave it, without
    category and relative source path, in whatever folder the file is;
    unless the loader itself sets the category [laws], [chunk] then
    hands its pages to the splitter without article segmentation. *)
Theorem pymupdf_pdf_not_annotated (data_dir p : Path)
    (loader : str -> Outcome) (raw : list Document) :
  lower (suffix p) = py ".pdf" ->
  PyMuPDFLoader = Some loader -> loader (path_str p) = Loaded raw ->
  load_paths data_dir [p] = Some raw
  /\ (Forall (fun d => ~ is_law d) raw ->
      chunk split_documents raw = split_nonempty split_documents raw).
Proof.
  intros Hp Hl Hr. split; [|apply chunk_no_law].
  rewrite load_paths_single. unfold load_step, load_file.
  rewrite decide_True by done. rewrite Hl, Hr. done.
Qed.

(** X22: a file loaded by any other loader (a text or markdown file, or
    a PDF read by the fallback loader) is annotated; when it lies in the
    folder [laws] of the data directory and the loader sets no category
    of its own, each of its documents has the category [laws], and
    [chunk] segments them all by article before splitting. *)
Theorem annotated_law_file_is_segmented (data_dir p : Path)
    (raw : list Document) :
  load_file [] p = Some (raw, false) ->
  path_category data_dir p = py "laws" ->
  Forall (fun d => metadata d !! "category"%string = None) raw ->
  exists ds,
    load_paths data_dir [p] = Some ds
    /\ ds = map (annotate (py "laws") (path_source_rel data_dir p)) raw
    /\ Forall is_law ds
    /\ chunk split_documents ds
       = split_nonempty split_documents (ds ≫= _split_law_document).
Proof.
  intros Hf Hc Hraw. eexists. split; [|split; [reflexivity|]].
  - rewrite load_paths_single. unfold load_step. rewrite Hf. simpl.
    rewrite drop_0, Hc.
    destruct raw; [done|]. done.
  - assert (Hall : Forall is_law
              (map (annotate (py "laws") (path_source_rel data_dir p)) raw)).
    { apply Forall_fmap. eapply Forall_impl; [exact Hraw|].
      intros d Hd. unfold is_law. simpl.
      change (metadata (annotate (py "laws") (path_source_rel data_dir p) d)
                !! "category"%string = Some (VStr (py "laws"))).
      by rewrite annotate_category, Hd. }
    split; [done|by apply chunk_all_law].
Qed.
End LoadingRouting.

(** * The store payload and the user interface *)

Section StoreFacts.
Context {U : UnicodeDB} {Vec : Type}.
Variable embed_documents : list str -> list Vec.

Lemma uint_digits_inj u1 u2 : uint_digits u1 = uint_digits u2 -> u1 = u2.
Proof.
  revert u2. induction u1 as [|u1 IH|u1 IH|u1 IH|u1 IH|u1 IH|u1 IH|u1 IH
                               |u1 IH|u1 IH|u1 IH];
    intros [|u2|u2|u2|u2|u2|u2|u2|u2|u2|u2]; simpl; intros H;
    try discriminate; try reflexivity;
    injection H as H; f_equal; by apply IH.
Qed.

Lemma str_of_nat_inj n1 n2 : str_of_nat n1 = str_of_nat n2 -> n1 = n2.
Proof.
  unfold str_of_nat. intros H. apply uint_digits_inj in H.
  by apply DecimalNat.Unsigned.to_uint_inj.
Qed.

(** X23: [build] hands the collection one id, one text and one metadata
    dictionary per document, in document order; the ids [doc-0],
    [doc-1], ... are pairwise different; the texts are stored without
    prefix, and the count returned is the number of documents. *)
Theorem build_payload (cfg : AppConfig) (docs : list Document) :
  let call := fst (build embed_documents cfg docs) in
  snd (build embed_documents cfg docs) = length docs
  /\ length (add_ids call) = length docs
  /\ NoDup (add_ids call)
  /\ add_documents call = map page_content docs
  /\ add_metadatas call = map metadata docs
  /\ forall i, (i < length docs)%nat ->
               add_ids call !! i = Some (py "doc-" ++ str_of_nat i).
Proof.
  unfold build. cbv zeta. cbn [fst snd add_ids add_documents add_metadatas].
  split; [done|]. split; [by rewrite length_map, length_seq|].
  split; [|split; [done|split; [done|]]].
  - apply NoDup_fmap_2; [|apply NoDup_seq].
    intros i j H. apply app_inv_head in H. by apply str_of_nat_inj.
  - intros i Hi. rewrite list_lookup_fmap, lookup_seq_lt by done. done.
Qed.
End StoreFacts.

Section UIFacts.
Context {U : UnicodeDB}.
Variable index : Query -> list Document.

Lemma strip_blank l : Forall blank l -> strip l = [].
Proof.
  intros H. unfold strip.
  rewrite <- (app_nil_r l), lstrip_blank by done. done.
Qed.

(** X24: a question that is empty or has only whitespace characters
    (those of [str.isspace]) is turned away without any search; every
    other question is passed to [ask] as typed, not stripped, with the
    result count of the slider, and gives one row of source and page per
    hit. *)
Theorem ui_ask_blank_guard (cfg : AppConfig) (question : str) (top_k : Z)
    (log : list Query) :
  (Forall blank question ->
   ui_ask index cfg question top_k log = ([], log))
  /\ (has_ink question ->
      ui_ask index cfg question top_k log
      = (map (fun d => (metadata d !! "source"%string,
                        metadata d !! "page"%string))
           (fst (ask index (set_k top_k cfg) question log)),
         snd (ask index (set_k top_k cfg) question log))).
Proof.
  unfold ui_ask. split.
  - intros Hb. rewrite (strip_blank _ Hb). simpl.
    by rewrite orb_true_r.
  - intros Hink.
    assert (H1 : truthy (Some question) = true).
    { apply has_ink_nonempty in Hink. by destruct question. }
    assert (H2 : truthy (Some (strip question)) = true).
    { apply strip_has_ink, has_ink_nonempty in Hink.
      by destruct (strip question). }
    rewrite H1, H2. simpl. unfold bind, ret.
    by destruct (ask index (set_k top_k cfg) question log).
Qed.
End UIFacts.

(** * The program on concrete inputs *)

#[local] Existing Instance ascii_db.



(** ["cobweb"] and ["article"] make a statute query. *)
Lemma bw_substring_with_article_keyword_witness :
  str_in (py "bw") (lower q_cobweb) = true
  /\ py "article" ∈ art_keywords
  /\ str_in (py "article") (lower q_cobweb) = true
  /\ _is_law_query q_cobweb = true.
Proof.
  assert (H1 : str_in (py "bw") (lower q_cobweb) = true)
    by (vm_compute; reflexivity).
  assert (H2 : py "article" ∈ art_keywords)
    by (do 2 apply list_elem_of_further; apply list_elem_of_here).
  assert (H3 : str_in (py "article") (lower q_cobweb) = true)
    by (vm_compute; reflexivity).
  split; [exact H1|]. split; [exact H2|]. split; [exact H3|].
  exact (proj1 (bw_substring_with_article_keyword q_cobweb (py "article"))
           H1 H2 H3).
Defined.

(** The two searches issued for the question with [7:244] and [k = 3]. *)
Lemma ask_issues_narrow_then_broad_witness :
  _is_law_query q_subletting = true
  /\ snd (ask example_index (config_with "recursive" 3) q_subletting [])
     = [mkQuery q_subletting 2
          (Some {[ "article"%string := VStr (py "7:244") ]});
        mkQuery q_subletting 3 None].
Proof.
  assert (H : _is_law_query q_subletting = true) by (vm_compute; reflexivity).
  split; [exact H|].
  exact (ask_issues_narrow_then_broad example_index
           (config_with "recursive" 3) q_subletting H).
Defined.

(** Narrow hits [A, B] and broad hits [B, C, D] merge to [A, B, C]. *)
Lemma ask_merges_narrow_before_broad_witness :
  _is_law_query q_subletting = true /\ (1 <= 3)%Z
  /\ fst (ask example_index (config_with "recursive" 3) q_subletting [])
     = [hit "A"; hit "B"; hit "C"].
Proof.
  assert (H : _is_law_query q_subletting = true) by (vm_compute; reflexivity).
  assert (Hk : (1 <= 3)%Z) by lia.
  split; [exact H|]. split; [exact Hk|].
  refine (proj2 (proj2 (ask_merges_narrow_before_broad example_index
                          (config_with "recursive" 3) q_subletting H Hk))
            (hit "A") (hit "B") (hit "C") (hit "D") _ eq_refl eq_refl eq_refl).
  apply (bool_decide_unpack _). vm_compute. exact I.
Defined.

(** The second article of the example keeps its heading line. *)
Lemma split_slices_from_heading_start_witness :
  finditer re_artikel (page_content law_example) <> []
  /\ length (_split_law_document law_example) = 2%nat
  /\ exists doc,
       _split_law_document law_example !! 1%nat = Some doc
       /\ page_content doc = py "Artikel 244a
Body2".
Proof.
  assert (H : finditer re_artikel (page_content law_example) <> [])
    by (vm_compute; discriminate).
  split; [exact H|].
  destruct (proj1 (split_slices_from_heading_start law_example) H)
    as [Hlen Hall].
  split; [exact Hlen|].
  destruct (Hall 1%nat (mkMatch 18 30 (<[1%nat := (18, 30)%nat]>
                                         (<[2%nat := (26, 30)%nat]> ∅))))
    as (doc & Hdoc & Htext & _); [vm_compute; reflexivity|].
  exists doc. split; [exact Hdoc|]. rewrite Htext. vm_compute. reflexivity.
Defined.

(** The sub-documents of the example are not the bare bodies. *)
Lemma split_keeps_heading_counterexample :
  map page_content (_split_law_document law_example)
  = [py "Artikel 244
Body1"; py "Artikel 244a
Body2"]
  /\ map page_content (_split_law_document law_example)
     <> [py "Body1"; py "Body2"].
Proof. split; [vm_compute; reflexivity|vm_compute; discriminate]. Qed.

(** Prose without heading comes back as it is. *)
Lemma split_without_heading_witness :
  finditer re_artikel (page_content prose_example) = []
  /\ _split_law_document prose_example = [prose_example].
Proof.
  assert (H : finditer re_artikel (page_content prose_example) = [])
    by (vm_compute; reflexivity).
  split; [exact H|]. exact (proj1 (split_without_heading prose_example) H).
Defined.

(** The first article of the example has text. *)
Lemma split_texts_nonempty_witness :
  exists doc,
    _split_law_document law_example !! 0%nat = Some doc
    /\ page_content doc <> [].
Proof.
  assert (H : finditer re_artikel (page_content law_example) <> [])
    by (vm_compute; discriminate).
  destruct (_split_law_document law_example !! 0%nat) as [doc|] eqn:E;
    [|vm_compute in E; discriminate].
  exists doc. split; [reflexivity|].
  exact (proj1 (split_texts_nonempty law_example doc 0 H E)).
Defined.

(** The source path [laws/BOEK7.txt] gives book 7 and article [7:244]. *)
Lemma split_book_metadata_witness :
  exists doc,
    doc ∈ _split_law_document law_example
    /\ metadata doc !! "book"%string = Some (VStr (py "7"))
    /\ metadata doc !! "article"%string = Some (VStr (py "7:244")).
Proof.
  assert (H : finditer re_artikel (page_content law_example) <> [])
    by (vm_compute; discriminate).
  exists (nth 0 (_split_law_document law_example) law_example).
  assert (Hin : nth 0 (_split_law_document law_example) law_example
                ∈ _split_law_document law_example).
  { apply list_elem_of_lookup. exists 0%nat. vm_compute. reflexivity. }
  split; [exact Hin|].
  destruct (split_book_metadata law_example _ H Hin) as (num & Hnum & Hb).
  assert (Hnum' : metadata (nth 0 (_split_law_document law_example)
                              law_example) !! "article_num"%string
                  = Some (VStr (py "244"))) by (vm_compute; reflexivity).
  rewrite Hnum' in Hnum. injection Hnum as <-.
  assert (Hs : search re_boek (source_path (metadata law_example))
               = Some (mkMatch 5 10 (<[1%nat := (9, 10)%nat]> ∅)))
    by (vm_compute; reflexivity).
  rewrite Hs in Hb. destruct Hb as (_ & _ & _ & _ & Hbook & Hart).
  split; [exact Hbook|exact Hart].
Defined.


(** Five chunks of 10 to 50 characters: index 3, [p95 = 40]. *)
Lemma chunk_stats_p95_nearest_rank_witness :
  exists sorted,
    Sorted Z.le sorted
    /\ sorted !! 3%nat = Some (st_p95 (chunk_stats (fun l => l) five_chunks))
    /\ st_p95 (chunk_stats (fun l => l) five_chunks) = 40%Z.
Proof.
  destruct (proj1 (chunk_stats_p95_nearest_rank (fun l => l) five_chunks))
    as (sorted & Hs & _ & Hp).
  - vm_compute. discriminate.
  - vm_compute. discriminate.
  - exists sorted. split; [exact Hs|]. split; [exact Hp|].
    vm_compute. reflexivity.
Defined.

(** ** Retrieval *)

(** The hit [A] of the example comes from the narrow search. *)
Lemma ask_hits_from_issued_searches_witness :
  hit "A" ∈ fst (ask example_index (config_with "recursive" 3)
                   q_subletting [])
  /\ exists qu,
       qu ∈ snd (ask example_index (config_with "recursive" 3)
                   q_subletting [])
       /\ hit "A" ∈ example_index qu.
Proof.
  assert (H : hit "A" ∈ fst (ask example_index (config_with "recursive" 3)
                               q_subletting [])).
  { apply list_elem_of_lookup. exists 0%nat. vm_compute. reflexivity. }
  split; [exact H|].
  exact (ask_hits_from_issued_searches example_index
           (config_with "recursive" 3) q_subletting (hit "A") H).
Defined.

Lemma ask_statute_hits_distinct_keys_witness :
  _is_law_query q_subletting = true
  /\ NoDup (map dedup_key
              (fst (ask example_index (config_with "recursive" 3)
                      q_subletting []))).
Proof.
  assert (H : _is_law_query q_subletting = true) by (vm_compute; reflexivity).
  split; [exact H|].
  exact (ask_statute_hits_distinct_keys example_index
           (config_with "recursive" 3) q_subletting H).
Defined.


Lemma ask_keeps_every_narrow_hit_witness :
  _is_law_query q_subletting = true /\ (2 <= 3)%Z
  /\ [hit "A"; hit "B"]
       `prefix_of` fst (ask example_index (config_with "recursive" 3)
                          q_subletting []).
Proof.
  assert (H : _is_law_query q_subletting = true) by (vm_compute; reflexivity).
  assert (Hk : (2 <= k (config_with "recursive" 3))%Z) by (simpl; lia).
  assert (Hl : (Z.of_nat (length (example_index
                   (narrow_query (k (config_with "recursive" 3))
                      q_subletting)))
                <= q_k (narrow_query (k (config_with "recursive" 3))
                          q_subletting))%Z)
    by (vm_compute; discriminate).
  split; [exact H|]. split; [lia|].
  exact (proj1 (ask_keeps_every_narrow_hit example_index
                  (config_with "recursive" 3) q_subletting H Hk Hl)).
Defined.

Lemma extract_article_shape_witness :
  _extract_article q_subletting = Some (py "7:244")
  /\ article_id_shape (py "7:244").
Proof.
  assert (H : _extract_article q_subletting = Some (py "7:244"))
    by (vm_compute; reflexivity).
  split; [exact H|].
  exact (proj1 (extract_article_shape q_subletting (py "7:244") H)).
Defined.

(** ** Segmentation *)

(** The sub-documents of the example keep the category of the law. *)
Lemma split_keeps_other_metadata_witness :
  exists doc,
    doc ∈ _split_law_document law_example
    /\ metadata doc !! "category"%string = Some (VStr (py "laws")).
Proof.
  exists (nth 1 (_split_law_document law_example) law_example).
  assert (Hin : nth 1 (_split_law_document law_example) law_example
                ∈ _split_law_document law_example).
  { apply list_elem_of_lookup. exists 1%nat. vm_compute. reflexivity. }
  split; [exact Hin|].
  rewrite (split_keeps_other_metadata law_example _ "category" Hin);
    [reflexivity|discriminate|discriminate|discriminate].
Defined.

Lemma split_article_num_shape_witness :
  exists doc num,
    doc ∈ _split_law_document law_example
    /\ metadata doc !! "article_num"%string = Some (VStr num)
    /\ number_shape az_i num.
Proof.
  assert (H : finditer re_artikel (page_content law_example) <> [])
    by (vm_compute; discriminate).
  assert (Hin : nth 1 (_split_law_document law_example) law_example
                ∈ _split_law_document law_example).
  { apply list_elem_of_lookup. exists 1%nat. vm_compute. reflexivity. }
  destruct (split_article_num_shape law_example _ H Hin)
    as (num & Hnum & Hshape).
  exists (nth 1 (_split_law_document law_example) law_example), num.
  split; [exact Hin|]. split; [exact Hnum|exact Hshape].
Defined.

(** The heading [Artikel 244A] of book 7 gives the article [7:244A]; the
    question that cites [7:244A] is searched with [7:244a]. *)
Lemma uppercase_article_never_extracted_witness :
  exists doc,
    doc ∈ _split_law_document law_example_upper
    /\ metadata doc !! "article"%string = Some (VStr (py "7:244A"))
    /\ _extract_article (py "What does 7:244A say?") = Some (py "7:244a")
    /\ forall q, _extract_article q <> Some (py "7:244A").
Proof.
  assert (H : finditer re_artikel (page_content law_example_upper) <> [])
    by (vm_compute; discriminate).
  exists (nth 0 (_split_law_document law_example_upper) law_example_upper).
  assert (Hin : nth 0 (_split_law_document law_example_upper)
                  law_example_upper
                ∈ _split_law_document law_example_upper).
  { apply list_elem_of_lookup. exists 0%nat. vm_compute. reflexivity. }
  assert (Ha : metadata (nth 0 (_split_law_document law_example_upper)
                           law_example_upper) !! "article"%string
               = Some (VStr (py "7:244A"))) by (vm_compute; reflexivity).
  assert (Hn : metadata (nth 0 (_split_law_document law_example_upper)
                           law_example_upper) !! "article_num"%string
               = Some (VStr (py "244A"))) by (vm_compute; reflexivity).
  assert (Hch : 65 ∈ py "244A").
  { apply list_elem_of_lookup. exists 3%nat. reflexivity. }
  split; [exact Hin|]. split; [exact Ha|].
  split; [vm_compute; reflexivity|].
  exact (uppercase_article_never_extracted law_example_upper _
           (py "7:244A") (py "244A") 65 H Hin Ha Hn Hch eq_refl).
Defined.

(** The line [Preamble] before the first heading is in no slice. *)
Lemma split_slices_tile_from_first_heading_witness :
  finditer re_artikel (page_content law_example_preamble)
  = [mkMatch 9 18 (<[1%nat := (9, 18)%nat]> (<[2%nat := (17, 18)%nat]> ∅))]
  /\ map page_content (_split_law_document law_example_preamble)
     = [py "Artikel 1
Body"]
  /\ concat (raw_slices (page_content law_example_preamble)
               (finditer re_artikel (page_content law_example_preamble)))
     = drop 9 (page_content law_example_preamble).
Proof.
  assert (H : finditer re_artikel (page_content law_example_preamble)
              = [mkMatch 9 18 (<[1%nat := (9, 18)%nat]>
                                 (<[2%nat := (17, 18)%nat]> ∅))])
    by (vm_compute; reflexivity).
  destruct (split_slices_tile_from_first_heading law_example_preamble _ _ H)
    as [H1 H2].
  split; [exact H|]. split.
  - rewrite H1. vm_compute. reflexivity.
  - rewrite H. exact H2.
Defined.

(** ** Chunking *)

Lemma chunk_stats_consistent_witness :
  chunk (fun l => l) five_chunks <> []
  /\ st_max (chunk_stats (fun l => l) five_chunks) = 50%Z
  /\ (st_p95 (chunk_stats (fun l => l) five_chunks)
      <= st_max (chunk_stats (fun l => l) five_chunks))%Z.
Proof.
  assert (H : chunk (fun l => l) five_chunks <> [])
    by (vm_compute; discriminate).
  assert (Hb : (Z.of_nat (length (map (fun c => Z.of_nat
                    (length (page_content c)))
                    (chunk (fun l => l) five_chunks))) <= 2 ^ 48)%Z)
    by (vm_compute; discriminate).
  split; [exact H|]. split; [vm_compute; reflexivity|].
  exact (proj2 (proj2 (proj2 (proj2 (proj2
           (chunk_stats_consistent (fun l => l) five_chunks)) H)) Hb)).
Defined.

(** Of the lengths 10, 20, 30, 40 and 50 the second largest is 40. *)
Lemma chunk_stats_p95_second_largest_witness :
  (2 <= 5 <= 21)%nat
  /\ exists sorted,
       Sorted Z.le sorted
       /\ sorted !! 3%nat
          = Some (st_p95 (chunk_stats (fun l => l) five_chunks)).
Proof.
  assert (H : (2 <= length (map (fun c => Z.of_nat (length (page_content c)))
                         (chunk (fun l => l) five_chunks)) <= 21)%nat)
    by (vm_compute; lia).
  split; [lia|].
  destruct (chunk_stats_p95_second_largest (fun l => l) five_chunks H)
    as (sorted & Hs & _ & Hp & _).
  exists sorted. split; [exact Hs|exact Hp].
Defined.

(** ** Evaluation *)

(** The pattern ["body1"] is in the text of the law example as
    ["Body1"]; the lowercased pattern ["Body1"] is found. *)
Lemma match_finds_ascii_substring_witness :
  py "Body1" ∈ [py "x"; py "Body1"]
  /\ str_in (py "Body1") (page_content law_example) = true
  /\ _match law_example [py "x"; py "Body1"] = true.
Proof.
  assert (H1 : py "Body1" ∈ [py "x"; py "Body1"])
    by (apply list_elem_of_further; apply list_elem_of_here).
  assert (H2 : Forall (fun c => c < 128) (py "Body1"))
    by (repeat constructor).
  assert (H3 : str_in (py "Body1") (page_content law_example) = true)
    by (vm_compute; reflexivity).
  split; [exact H1|]. split; [exact H3|].
  exact (proj1 (match_finds_ascii_substring law_example (py "Body1")
                  [py "x"; py "Body1"]) H1 H2 (or_introl H3)).
Defined.

(** The unfiltered search answers [B, C, D]; the pattern ["C"] is first
    matched by the second hit. *)
Lemma eval_rank_is_first_match_witness :
  exists row,
    snd (fst (run_retrieval_eval example_index (config_with "recursive" 3)
                [eval_example] None [])) !! 0%nat = Some row
    /\ row_rank row = Some 1%nat
    /\ row_hit row = true.
Proof.
  set (out := fst (run_retrieval_eval example_index
                     (config_with "recursive" 3) [eval_example] None [])).
  destruct (snd out !! 0%nat) as [row|] eqn:E;
    [|vm_compute in E; discriminate].
  exists row. split; [reflexivity|].
  assert (Hr : row_rank row = Some 1%nat).
  { vm_compute in E. injection E as <-. reflexivity. }
  split; [exact Hr|].
  pose proof (proj2 (proj2 (eval_rank_is_first_match example_index
                              (config_with "recursive" 3) [eval_example]
                              None))
                0%nat eval_example row eq_refl E) as H.
  cbv zeta in H. rewrite Hr in H. exact (proj1 H).
Defined.

(** ** Chunking overrides *)

Lemma cli_overrides_reach_splitter_witness :
  py "tokens" ∈ strategy_choices /\ 256%Z <> 0%Z /\ 32%Z <> 0%Z
  /\ splitter_size
       (_build_splitter (fun _ => true)
          (cli_overrides (Some (py "tokens")) (Some 256%Z) (Some 32%Z)
             (config_with "recursive" 4))) = 256%Z.
Proof.
  assert (H1 : py "tokens" ∈ strategy_choices)
    by (apply list_elem_of_further; apply list_elem_of_here).
  assert (H2 : 256%Z <> 0%Z) by discriminate.
  assert (H3 : 32%Z <> 0%Z) by discriminate.
  split; [exact H1|]. split; [exact H2|]. split; [exact H3|].
  exact (proj1 (cli_overrides_reach_splitter (fun _ => true)
                  (config_with "recursive" 4) (py "tokens") 256 32
                  H1 H2 H3 (fun _ => eq_refl))).
Defined.



(** ** Loading *)

(** The text file of the example is annotated. *)
Lemma load_paths_annotated_or_pymupdf_witness :
  exists ds d,
    load_paths (PO := example_paths) (L := example_loaders) ex_data
      [ex_law_pdf; ex_law_txt] = Some ds
    /\ ds !! 1%nat = Some d
    /\ metadata d !! "category"%string = Some (VStr (py "laws"))
    /\ (annotated d
        \/ exists p loader raw,
             p ∈ [ex_law_pdf; ex_law_txt]
             /\ lower (suffix (PathOps := example_paths) p) = py ".pdf"
             /\ PyMuPDFLoader (Loaders := example_loaders) = Some loader
             /\ loader (path_str (PathOps := example_paths) p) = Loaded raw
             /\ d ∈ raw).
Proof.
  destruct (load_paths (PO := example_paths) (L := example_loaders) ex_data
              [ex_law_pdf; ex_law_txt]) as [ds|] eqn:E;
    [|vm_compute in E; discriminate].
  destruct (ds !! 1%nat) as [d|] eqn:Ed.
  2: { vm_compute in E. injection E as <-. vm_compute in Ed. discriminate. }
  exists ds, d. split; [reflexivity|]. split; [exact Ed|].
  split.
  { clear -E Ed. vm_compute in E. injection E as <-. vm_compute in Ed.
    injection Ed as <-. vm_compute. reflexivity. }
  apply (load_paths_annotated_or_pymupdf (PO := example_paths)
           (L := example_loaders) ex_data [ex_law_pdf; ex_law_txt] ds d E).
  apply list_elem_of_lookup. by exists 1%nat.
Defined.

(** The PDF in the folder [laws] comes back as PyMuPDF read it, without
    category. *)
Lemma pymupdf_pdf_not_annotated_witness :
  exists raw,
    load_paths (PO := example_paths) (L := example_loaders) ex_data
      [ex_law_pdf] = Some raw
    /\ Forall (fun d => metadata d !! "category"%string = None) raw
    /\ chunk (fun l => l) raw = raw.
Proof.
  set (raw := [mkDocument (py "Artikel 1
Page") {[ "source"%string := VStr (py "data/laws/Boek7.PDF");
          "page"%string := VInt 0 ]}]).
  destruct (pymupdf_pdf_not_annotated (PO := example_paths)
              (L := example_loaders) (fun l => l) ex_data ex_law_pdf
              _ raw eq_refl eq_refl eq_refl) as [H1 H2].
  exists raw. split; [exact H1|]. split.
  - repeat constructor.
  - rewrite H2; [reflexivity|]. repeat constructor. vm_compute. discriminate.
Defined.

(** The text file in the folder [laws] is segmented by article. *)
Lemma annotated_law_file_is_segmented_witness :
  exists ds,
    load_paths (PO := example_paths) (L := example_loaders) ex_data
      [ex_law_txt] = Some ds
    /\ Forall is_law ds
    /\ map (fun d => metadata d !! "article"%string) (chunk (fun l => l) ds)
       = [Some (VStr (py "7:1"))].
Proof.
  set (raw := [mkDocument (py "Artikel 1
Text") {[ "source"%string := VStr (py "data/laws/Boek7.txt") ]}]).
  destruct (annotated_law_file_is_segmented (PO := example_paths)
              (L := example_loaders) (fun l => l) ex_data ex_law_txt raw)
    as (ds & H1 & H2 & H3 & H4).
  - vm_compute. reflexivity.
  - vm_compute. reflexivity.
  - repeat constructor.
  - exists ds. split; [exact H1|]. split; [exact H3|].
    rewrite H4, H2. vm_compute. reflexivity.
Defined.
